(** * Ideal-gas particle core of [pygame/ideal_gas.py]

    A shallow embedding of the physics core of the script: [Particle],
    [SpatialGrid], [check_particle_collision] and [Simulation], followed by
    the properties of the specification that concern them.

    Numbers.  The script computes on Python floats and ints.  The embedding
    is over the real numbers [R]: every arithmetic operation is exact, and
    the values [nan] and [inf] do not exist.  Where the script can leave the
    reals (a division whose divisor is zero) the embedding stops with an
    exception value, see [exn].

    Objects.  Particles are mutable objects shared between the particle list
    and the grid cells.  The store of particle objects is the list
    [Simulation.particles]; a reference is an index into it, and the grid
    cells hold references.

    Not embedded: the attribute [Particle.color] (its value is
    [get_color], embedded as a function of the particle), text and shape
    drawing, event polling, the frame clock and video capture.  Of [main],
    the volume control with the arrow keys and the position of the
    container outline are embedded. *)

From Stdlib Require Import Reals Lra Lia ZArith.
From stdpp Require Import base list.

Open Scope R_scope.

(** ** Exceptions and the result monad *)

Inductive exn : Type :=
| ZeroDivisionError
    (* raised by Python's own [/] and [//] on a zero divisor *)
| IndexError
    (* raised by list indexing out of range *)
| NotANumber
    (* numpy's float64 division by a zero divisor does not raise: it yields
       nan or inf (with a RuntimeWarning).  The reals have no such value, so
       the embedding stops here. *)
| DanglingRef
    (* a reference outside the store; Python has no counterpart, a reference
       always denotes an object *).

Inductive result (A : Type) : Type :=
| Ok (a : A)
| Raise (e : exn).
Arguments Ok {A} a.
Arguments Raise {A} e.

#[global] Instance result_ret : MRet result := fun A a => Ok a.
#[global] Instance result_bind : MBind result := fun A B f m =>
  match m with
  | Ok a => f a
  | Raise e => Raise e
  end.

(** [for x in xs: s = body(s, x)], stopping at the first exception. *)
Fixpoint for_each {A S : Type} (xs : list A) (s : S)
    (body : S -> A -> result S) : result S :=
  match xs with
  | [] => Ok s
  | x :: xs' => s' ← body s x; for_each xs' s' body
  end.

(** ** Python primitives *)

(** [a / b] on Python numbers. *)
Definition py_div (a b : R) : result R :=
  if Req_dec_T b 0 then Raise ZeroDivisionError else Ok (a / b).

(** [a / b] where an operand is a numpy float64 (here: anything computed
    from [np.sqrt]). *)
Definition np_div (a b : R) : result R :=
  if Req_dec_T b 0 then Raise NotANumber else Ok (a / b).

(** [int(a // b)]: floor division, then conversion of the integral float. *)
Definition int_floordiv (a b : R) : result Z :=
  if Req_dec_T b 0 then Raise ZeroDivisionError else Ok (Zfloor (a / b)).

(** [range(lo, hi)] *)
Definition py_range (lo hi : Z) : list Z :=
  map (fun k => (lo + Z.of_nat k)%Z) (seq 0 (Z.to_nat (hi - lo))).

(** Position denoted by the index [i] in a list of length [len]: negative
    indices count from the end. *)
Definition norm_index (len : nat) (i : Z) : option nat :=
  if (0 <=? i)%Z && (i <? Z.of_nat len)%Z then Some (Z.to_nat i)
  else if (- Z.of_nat len <=? i)%Z && (i <? 0)%Z
       then Some (Z.to_nat (Z.of_nat len + i))
       else None.

(** [l[i]] *)
Definition getitem {A : Type} (l : list A) (i : Z) : result A :=
  match norm_index (length l) i with
  | Some k => match l !! k with
              | Some a => Ok a
              | None => Raise IndexError
              end
  | None => Raise IndexError
  end.

(** [l[i] = a], for an index at which [l[i]] was read before. *)
Definition setitem {A : Type} (l : list A) (i : Z) (a : A) : list A :=
  match norm_index (length l) i with
  | Some k => <[k:=a]> l
  | None => l
  end.

(** [np.random.uniform(low, high)] given the underlying sample [u] of
    [[0, 1)]. *)
Definition uniform (low high u : R) : R := low + (high - low) * u.

(** ** Constants *)

Definition PARTICLE_SIZE : R := 5.
Definition PARTICLE_COUNT : nat := 100.
Definition GAS_CONSTANT : R := 1.
Definition CELL_SIZE : R := PARTICLE_SIZE * 2.

(** A reference to a particle object: its index in the particle list. *)
Abbreviation ref := nat.

(** ** class Particle *)

Module Particle.

Record t : Type := mk {
  x : R;
  y : R;
  vx : R;
  vy : R;
  radius : R;
  mass : R;
  cell_x : Z;
  cell_y : Z
}.

Definition set_x (self : t) (v : R) : t :=
  mk v (y self) (vx self) (vy self) (radius self) (mass self)
     (cell_x self) (cell_y self).
Definition set_y (self : t) (v : R) : t :=
  mk (x self) v (vx self) (vy self) (radius self) (mass self)
     (cell_x self) (cell_y self).
Definition set_vx (self : t) (v : R) : t :=
  mk (x self) (y self) v (vy self) (radius self) (mass self)
     (cell_x self) (cell_y self).
Definition set_vy (self : t) (v : R) : t :=
  mk (x self) (y self) (vx self) v (radius self) (mass self)
     (cell_x self) (cell_y self).
Definition set_cell_x (self : t) (c : Z) : t :=
  mk (x self) (y self) (vx self) (vy self) (radius self) (mass self)
     c (cell_y self).
Definition set_cell_y (self : t) (c : Z) : t :=
  mk (x self) (y self) (vx self) (vy self) (radius self) (mass self)
     (cell_x self) c.

(** [Particle.__init__].  [CELL_SIZE] is the non-zero constant 10, so the
    floor division cannot raise. *)
Definition init (x y vx vy : R) : t :=
  {| x := x; y := y; vx := vx; vy := vy;
     radius := PARTICLE_SIZE;
     mass := 1;
     cell_x := Zfloor (x / CELL_SIZE);
     cell_y := Zfloor (y / CELL_SIZE) |}.

(** [Particle.update]: the updated object and the returned flag. *)
Definition update (self : t) (width height : R) : t * bool :=
  (* Update position based on velocity *)
  let self := set_x self (x self + vx self) in
  let self := set_y self (y self + vy self) in
  (* Wall collisions - horizontal *)
  let collision := false in
  let '(self, collision) :=
    if Rlt_dec (x self - radius self) 0 then
      let self := set_vx self (Rabs (vx self)) in
      let self := set_x self (radius self) in
      (self, true)
    else if Rgt_dec (x self + radius self) width then
      let self := set_vx self (- Rabs (vx self)) in
      let self := set_x self (width - radius self) in
      (self, true)
    else (self, collision) in
  (* Wall collisions - vertical *)
  let '(self, collision) :=
    if Rlt_dec (y self - radius self) 0 then
      let self := set_vy self (Rabs (vy self)) in
      let self := set_y self (radius self) in
      (self, true)
    else if Rgt_dec (y self + radius self) height then
      let self := set_vy self (- Rabs (vy self)) in
      let self := set_y self (height - radius self) in
      (self, true)
    else (self, collision) in
  (* Update grid cell position *)
  let new_cell_x := Zfloor (x self / CELL_SIZE) in
  let new_cell_y := Zfloor (y self / CELL_SIZE) in
  let self :=
    if negb (new_cell_x =? cell_x self)%Z || negb (new_cell_y =? cell_y self)%Z
    then set_cell_y (set_cell_x self new_cell_x) new_cell_y
    else self in
  (self, collision).

End Particle.

(** ** class SpatialGrid *)

Module SpatialGrid.

Record t : Type := mk {
  cell_size : R;
  cols : Z;
  rows : Z;
  grid : list (list (list ref))
}.

(** [SpatialGrid.__init__]; [range] of a non-positive count is empty. *)
Definition init (width height : R) : t :=
  let cell_size := CELL_SIZE in
  let cols := (Zfloor (width / cell_size) + 1)%Z in
  let rows := (Zfloor (height / cell_size) + 1)%Z in
  {| cell_size := cell_size;
     cols := cols;
     rows := rows;
     grid := replicate (Z.to_nat cols) (replicate (Z.to_nat rows) []) |}.

(** [SpatialGrid.insert]: [r] is the reference appended to the cell and
    [particle] the object it denotes. *)
Definition insert (self : t) (r : ref) (particle : Particle.t) : result t :=
  qx ← int_floordiv (Particle.x particle) (cell_size self);
  let col := Z.min (Z.max 0 qx) (cols self - 1) in
  qy ← int_floordiv (Particle.y particle) (cell_size self);
  let row := Z.min (Z.max 0 qy) (rows self - 1) in
  column ← getitem (grid self) col;
  cell ← getitem column row;
  Ok (mk (cell_size self) (cols self) (rows self)
         (setitem (grid self) col (setitem column row (cell ++ [r])))).

(** [SpatialGrid.get_potential_collisions] *)
Definition get_potential_collisions (self : t) (particle : Particle.t)
    : result (list ref) :=
  let potential_collisions := [] in
  qx ← int_floordiv (Particle.x particle) (cell_size self);
  let col := Z.min (Z.max 0 qx) (cols self - 1) in
  qy ← int_floordiv (Particle.y particle) (cell_size self);
  let row := Z.min (Z.max 0 qy) (rows self - 1) in
  for_each (py_range (Z.max 0 (col - 1)) (Z.min (col + 2) (cols self)))
    potential_collisions (fun potential_collisions i =>
  for_each (py_range (Z.max 0 (row - 1)) (Z.min (row + 2) (rows self)))
    potential_collisions (fun potential_collisions j =>
      column ← getitem (grid self) i;
      cell ← getitem column j;
      Ok (potential_collisions ++ cell))).

End SpatialGrid.

(** ** check_particle_collision *)

(** Lines 158-210 of the function, for two distinct objects [p1] and [p2]:
    the returned flag and the two objects after the call.  The quotients by
    [distance] and by [m1 + m2] have a numpy float64 operand. *)
Definition resolve_pair (p1 p2 : Particle.t)
    : result (bool * Particle.t * Particle.t) :=
  (* Calculate distance between particles *)
  let dx := Particle.x p2 - Particle.x p1 in
  let dy := Particle.y p2 - Particle.y p1 in
  let distance := sqrt (dx ^ 2 + dy ^ 2) in
  (* Check if particles are colliding *)
  if Rlt_dec distance (Particle.radius p1 + Particle.radius p2) then
    (* Calculate normal vector (direction from p1 to p2) *)
    nx ← np_div dx distance;
    ny ← np_div dy distance;
    (* Tangent vector (perpendicular to normal) *)
    let tx := - ny in
    let ty := nx in
    (* Relative velocity *)
    let dvx := Particle.vx p2 - Particle.vx p1 in
    let dvy := Particle.vy p2 - Particle.vy p1 in
    (* Project relative velocity onto normal *)
    let normal_vel := dvx * nx + dvy * ny in
    (* Only resolve collision if particles are moving toward each other *)
    if Rge_dec normal_vel 0 then Ok (false, p1, p2) else
    (* Extract masses for calculation *)
    let m1 := Particle.mass p1 in
    let m2 := Particle.mass p2 in
    (* Normal velocities after collision *)
    v1n ← np_div ((m1 - m2) * (Particle.vx p1 * nx + Particle.vy p1 * ny)
                  + 2 * m2 * (Particle.vx p2 * nx + Particle.vy p2 * ny))
                 (m1 + m2);
    v2n ← np_div ((m2 - m1) * (Particle.vx p2 * nx + Particle.vy p2 * ny)
                  + 2 * m1 * (Particle.vx p1 * nx + Particle.vy p1 * ny))
                 (m1 + m2);
    (* Project current velocities to tangent direction *)
    let v1t := Particle.vx p1 * tx + Particle.vy p1 * ty in
    let v2t := Particle.vx p2 * tx + Particle.vy p2 * ty in
    (* Convert back to x,y coordinates *)
    let p1 := Particle.set_vx p1 (v1n * nx + v1t * tx) in
    let p1 := Particle.set_vy p1 (v1n * ny + v1t * ty) in
    let p2 := Particle.set_vx p2 (v2n * nx + v2t * tx) in
    let p2 := Particle.set_vy p2 (v2n * ny + v2t * ty) in
    (* Slightly separate particles to prevent sticking *)
    let overlap := Particle.radius p1 + Particle.radius p2 - distance in
    let '(p1, p2) :=
      if Rgt_dec overlap 0 then
        let p1 := Particle.set_x p1 (Particle.x p1 - 0.5 * overlap * nx) in
        let p1 := Particle.set_y p1 (Particle.y p1 - 0.5 * overlap * ny) in
        let p2 := Particle.set_x p2 (Particle.x p2 + 0.5 * overlap * nx) in
        let p2 := Particle.set_y p2 (Particle.y p2 + 0.5 * overlap * ny) in
        (p1, p2)
      else (p1, p2) in
    Ok (true, p1, p2)
  else Ok (false, p1, p2).

(** [check_particle_collision(p1, p2)] on the references [r1] and [r2] into
    the store [st]: the identity test, then [resolve_pair] on the two
    objects, whose mutations are written back to the store. *)
Definition check_particle_collision (st : list Particle.t) (r1 r2 : ref)
    : result (bool * list Particle.t) :=
  (* Skip if same particle *)
  if decide (r1 = r2) then Ok (false, st) else
  match st !! r1, st !! r2 with
  | Some p1, Some p2 =>
      '(collided, p1', p2') ← resolve_pair p1 p2;
      Ok (collided, <[r2:=p2']> (<[r1:=p1']> st))
  | _, _ => Raise DanglingRef
  end.

(** ** class Simulation *)

Module Simulation.

Record t : Type := mk {
  width : R;
  height : R;
  particles : list Particle.t;
  spatial_grid : SpatialGrid.t;
  volume : R;
  pressure : R;
  temperature : R;
  collision_count : Z;
  time_elapsed : R
}.

(** The [k]-th particle built by [__init__]; [rnd] is the sequence of
    samples of [[0, 1)] behind the successive [np.random.uniform] calls. *)
Definition random_particle (width height : R) (rnd : nat -> R) (k : nat)
    : Particle.t :=
  Particle.init
    (uniform PARTICLE_SIZE (width - PARTICLE_SIZE) (rnd (4 * k)%nat))
    (uniform PARTICLE_SIZE (height - PARTICLE_SIZE) (rnd (4 * k + 1)%nat))
    (uniform (-5) 5 (rnd (4 * k + 2)%nat))
    (uniform (-5) 5 (rnd (4 * k + 3)%nat)).

(** [Simulation.__init__].  No statement of the constructor raises; the
    result type leaves room to say whether a configuration is accepted. *)
Definition init (width height : R) (rnd : nat -> R) : result t :=
  Ok {| width := width;
        height := height;
        particles :=
          map (random_particle width height rnd) (seq 0 PARTICLE_COUNT);
        spatial_grid := SpatialGrid.init width height;
        volume := width * height;
        pressure := 0;
        temperature := 0;
        collision_count := 0;
        time_elapsed := 0 |}.

(** First loop of [update]: every particle is updated, wall collisions are
    counted. *)
Fixpoint update_particles (ps : list Particle.t) (width height : R)
    : list Particle.t * Z :=
  match ps with
  | [] => ([], 0%Z)
  | particle :: rest =>
      let '(particle', hit) := Particle.update particle width height in
      let '(rest', wall_collisions) := update_particles rest width height in
      (particle' :: rest', ((if hit then 1 else 0) + wall_collisions)%Z)
  end.

(** Second loop of [update]: a fresh grid, every particle inserted. *)
Definition rebuild_grid (st : list Particle.t) (width height : R)
    : result SpatialGrid.t :=
  for_each (zip (seq 0 (length st)) st) (SpatialGrid.init width height)
    (fun g '(r, particle) => SpatialGrid.insert g r particle).

(** Third loop of [update]: each particle against its candidates.  The
    candidates are computed from the particle's position at that moment. *)
Definition resolve_collisions (g : SpatialGrid.t) (st : list Particle.t)
    : result (list Particle.t) :=
  for_each (seq 0 (length st)) st (fun st r =>
    match st !! r with
    | None => Raise DanglingRef
    | Some particle =>
        potential_collisions ← SpatialGrid.get_potential_collisions g particle;
        for_each potential_collisions st (fun st other =>
          '(_, st') ← check_particle_collision st r other;
          Ok st')
    end).

(** [Simulation.update] *)
Definition update (self : t) (dt : R) : result t :=
  let time_elapsed := time_elapsed self + dt in
  (* Update particles and count wall collisions *)
  let '(st, wall_collisions) :=
    update_particles (particles self) (width self) (height self) in
  (* Clear and rebuild spatial grid *)
  g ← rebuild_grid st (width self) (height self);
  (* Check for and handle particle-particle collisions using spatial grid *)
  st ← resolve_collisions g st;
  (* Track collisions for pressure calculation *)
  let collision_count := (collision_count self + wall_collisions)%Z in
  (* Update pressure every second *)
  '(pressure, collision_count, time_elapsed) ←
    (if Rge_dec time_elapsed 1 then
       pressure ← py_div (IZR collision_count)
                         (time_elapsed * width self * height self);
       Ok (pressure * 1000, 0%Z, 0)
     else Ok (pressure self, collision_count, time_elapsed));
  (* Calculate temperature using ideal gas law: PV = nRT *)
  let temperature :=
    (pressure * volume self) / (INR PARTICLE_COUNT * GAS_CONSTANT) in
  Ok {| width := width self;
        height := height self;
        particles := st;
        spatial_grid := g;
        volume := volume self;
        pressure := pressure;
        temperature := temperature;
        collision_count := collision_count;
        time_elapsed := time_elapsed |}.

(** Body of the loop of [resize] for one particle. *)
Definition resize_particle (width height old_width old_height : R)
    (particle : Particle.t) : result Particle.t :=
  sx ← py_div width old_width;
  let particle :=
    Particle.set_x particle
      (Rmin (Rmax (Particle.x particle * sx) (Particle.radius particle))
            (width - Particle.radius particle)) in
  sy ← py_div height old_height;
  let particle :=
    Particle.set_y particle
      (Rmin (Rmax (Particle.y particle * sy) (Particle.radius particle))
            (height - Particle.radius particle)) in
  (* Update grid cell position *)
  let particle :=
    Particle.set_cell_x particle (Zfloor (Particle.x particle / CELL_SIZE)) in
  let particle :=
    Particle.set_cell_y particle (Zfloor (Particle.y particle / CELL_SIZE)) in
  Ok particle.

(** [Simulation.resize] *)
Definition resize (self : t) (width height : R) : result t :=
  let old_width := Simulation.width self in
  let old_height := Simulation.height self in
  (* Scale particle positions to new dimensions *)
  ps ← for_each (particles self) [] (fun done particle =>
         particle' ← resize_particle width height old_width old_height particle;
         Ok (done ++ [particle']));
  Ok {| width := width;
        height := height;
        particles := ps;
        spatial_grid := spatial_grid self;
        volume := width * height;
        pressure := pressure self;
        temperature := temperature self;
        collision_count := collision_count self;
        time_elapsed := time_elapsed self |}.

End Simulation.

(** ** Repeated ticks of one particle *)

(** [n] successive calls of [Particle.update] on the same particle against
    fixed bounds. *)
Fixpoint update_n (n : nat) (p : Particle.t) (width height : R) : Particle.t :=
  match n with
  | O => p
  | S k => update_n k (fst (Particle.update p width height)) width height
  end.

(** ** Notions used to state the properties *)

(** Centre-to-centre distance, as [check_particle_collision] computes it. *)
Definition centre_distance (p1 p2 : Particle.t) : R :=
  sqrt ((Particle.x p2 - Particle.x p1) ^ 2
        + (Particle.y p2 - Particle.y p1) ^ 2).

(** Two particles of mass 1 and radius 5 that overlap by 2 and approach
    each other head-on along the x axis. *)
Definition head_on : list Particle.t :=
  [ Particle.mk 46 50 2 0 5 1 4 5; Particle.mk 54 50 (-2) 0 5 1 5 5 ].


(** The particle that [resize] leaves in place of [p]: position scaled by
    the ratios [sx] and [sy] and clamped, cell indices recomputed, the rest
    untouched. *)
Definition rescaled (width height sx sy : R) (p : Particle.t) : Particle.t :=
  let x' := Rmin (Rmax (Particle.x p * sx) (Particle.radius p))
                 (width - Particle.radius p) in
  let y' := Rmin (Rmax (Particle.y p * sy) (Particle.radius p))
                 (height - Particle.radius p) in
  Particle.mk x' y' (Particle.vx p) (Particle.vy p)
              (Particle.radius p) (Particle.mass p)
              (Zfloor (x' / CELL_SIZE)) (Zfloor (y' / CELL_SIZE)).

(** A 700 x 500 simulation with three particles, one of them near the left
    and bottom walls. *)
Definition box_700x500 : Simulation.t :=
  {| Simulation.width := 700;
     Simulation.height := 500;
     Simulation.particles :=
       [ Particle.init 100 200 1 (-2);
         Particle.init 8 494 (-3) 4;
         Particle.init 690 6 0 5 ];
     Simulation.spatial_grid := SpatialGrid.init 700 500;
     Simulation.volume := 700 * 500;
     Simulation.pressure := 0;
     Simulation.temperature := 0;
     Simulation.collision_count := 0;
     Simulation.time_elapsed := 0 |}.

(** The cell index, before conversion to a list position, that
    [SpatialGrid.insert] and [get_potential_collisions] compute for a
    coordinate [v] along an axis with [n] cells. *)
Definition cell_index (cell_size v : R) (n : Z) : Z :=
  Z.min (Z.max 0 (Zfloor (v / cell_size))) (n - 1).

(** Content of the cell in column [c] and row [w] of a grid; no references
    where there is no such cell. *)
Definition cell_at (grid : list (list (list ref))) (c w : nat) : list ref :=
  match grid !! c with
  | Some column => match column !! w with
                   | Some cell => cell
                   | None => []
                   end
  | None => []
  end.

(** Shape of a grid built by [SpatialGrid.__init__] and filled by
    [insert]: the constant cell size, [cols] columns of [rows] cells. *)
Definition grid_wf (g : SpatialGrid.t) : Prop :=
  SpatialGrid.cell_size g = CELL_SIZE /\
  length (SpatialGrid.grid g) = Z.to_nat (SpatialGrid.cols g) /\
  forall (c : nat) (column : list (list ref)),
    SpatialGrid.grid g !! c = Some column ->
    length column = Z.to_nat (SpatialGrid.rows g).

(** A 30 x 20 simulation with one particle about to hit the right wall,
    five wall collisions counted so far and 0.75 time units into the
    sampling window. *)
Definition small_box : Simulation.t :=
  {| Simulation.width := 30;
     Simulation.height := 20;
     Simulation.particles := [ Particle.mk 12 10 14 0 5 1 1 1 ];
     Simulation.spatial_grid := SpatialGrid.init 30 20;
     Simulation.volume := 30 * 20;
     Simulation.pressure := 0;
     Simulation.temperature := 0;
     Simulation.collision_count := 5;
     Simulation.time_elapsed := 3 / 4 |}.

(** ** Further notions *)






(** A particle that reaches the top-right corner of a 100 x 100 container
    in one step, next to one that stays inside. *)
Definition corner_pair : list Particle.t :=
  [ Particle.mk 93 92 4 5 5 1 9 9; Particle.mk 50 50 1 1 5 1 5 5 ].

(** [l[i] = a] *)
Definition assign_item {A : Type} (l : list A) (i : Z) (a : A)
    : result (list A) :=
  match norm_index (length l) i with
  | Some k => Ok (<[k:=a]> l)
  | None => Raise IndexError
  end.

(** [SpatialGrid.clear]: every cell is assigned a new empty list.  The
    column is mutated in place, so the grid sees the assignment. *)
Definition clear (self : SpatialGrid.t) : result SpatialGrid.t :=
  grid ← for_each (py_range 0 (SpatialGrid.cols self)) (SpatialGrid.grid self)
    (fun grid col =>
       for_each (py_range 0 (SpatialGrid.rows self)) grid (fun grid row =>
         column ← getitem grid col;
         column ← assign_item column row [];
         Ok (setitem grid col column)));
  Ok (SpatialGrid.mk (SpatialGrid.cell_size self) (SpatialGrid.cols self)
        (SpatialGrid.rows self) grid).

(** The particles of [st'] are those of [st], one for one, with the same
    radius and mass. *)
Definition same_bodies (st st' : list Particle.t) : Prop :=
  length st' = length st /\
  forall (k : ref) (p' : Particle.t),
    st' !! k = Some p' ->
    exists p, st !! k = Some p /\
      Particle.radius p' = Particle.radius p /\
      Particle.mass p' = Particle.mass p.

(** Successive calls of [Simulation.update], one per frame, with the given
    time steps. *)
Definition run_ticks (self : Simulation.t) (dts : list R)
    : result Simulation.t :=
  for_each dts self Simulation.update.

(** Sum of the time steps. *)
Definition total_time (dts : list R) : R := fold_right Rplus 0 dts.

(** ** The main loop: volume control and the container outline *)

Definition WIDTH : Z := 800.
Definition HEIGHT : Z := 600.
Definition LENGTH_CHANGE : Z := 10.

(** The four entries of [pygame.key.get_pressed()] that [main] reads. *)
Record keys : Type := mk_keys {
  K_LEFT : bool;
  K_RIGHT : bool;
  K_UP : bool;
  K_DOWN : bool
}.

(** Lines 354-367 of [main]: one frame of volume control with the arrow
    keys.  Returns the simulation and the new [box_width], [box_height]. *)
Definition volume_control (pressed : keys) (simulation : Simulation.t)
    (box_width box_height : Z) : result (Simulation.t * Z * Z) :=
  let window_width := WIDTH in
  let window_height := HEIGHT in
  if K_LEFT pressed && (box_width >? 100)%Z then
    let box_width := (box_width - LENGTH_CHANGE)%Z in
    simulation ← Simulation.resize simulation (IZR box_width) (IZR box_height);
    Ok (simulation, box_width, box_height)
  else if K_RIGHT pressed && (box_width <? window_width - 50)%Z then
    let box_width := (box_width + LENGTH_CHANGE)%Z in
    simulation ← Simulation.resize simulation (IZR box_width) (IZR box_height);
    Ok (simulation, box_width, box_height)
  else if K_UP pressed && (box_height >? 100)%Z then
    let box_height := (box_height - LENGTH_CHANGE)%Z in
    simulation ← Simulation.resize simulation (IZR box_width) (IZR box_height);
    Ok (simulation, box_width, box_height)
  else if K_DOWN pressed && (box_height <? window_height - 50)%Z then
    let box_height := (box_height + LENGTH_CHANGE)%Z in
    simulation ← Simulation.resize simulation (IZR box_width) (IZR box_height);
    Ok (simulation, box_width, box_height)
  else Ok (simulation, box_width, box_height).

(** Lines 376-377 of [main]: top-left corner of the container outline in
    the window; [//] on integers is the floor division [Z.div]. *)
Definition box_origin (box_width box_height : Z) : Z * Z :=
  let window_width := WIDTH in
  let window_height := HEIGHT in
  let box_x := ((window_width - box_width) / 2)%Z in
  let box_y := ((window_height - box_height) / 2 + 50)%Z in
  (box_x, box_y).

(** What [main] keeps true of the box from its initial 700 x 500: both
    dimensions are multiples of [LENGTH_CHANGE] within the limits of the
    key tests, and the simulation has the dimensions of the box. *)
Definition box_ok (simulation : Simulation.t) (box_width box_height : Z) : Prop :=
  Simulation.width simulation = IZR box_width /\
  Simulation.height simulation = IZR box_height /\
  (100 <= box_width <= 750)%Z /\ (LENGTH_CHANGE | box_width)%Z /\
  (100 <= box_height <= 550)%Z /\ (LENGTH_CHANGE | box_height)%Z.


(** * Properties *)

(** ** Particle.update *)

Ltac case_ifs :=
  repeat match goal with
         | |- context [if ?c then _ else _] => destruct c
         end.

(** Evaluation of the embedding that leaves the arithmetic of [R] alone. *)
Tactic Notation "eval_py" :=
  cbn -[pow Rplus Rminus Rmult Rdiv Ropp Rinv Rabs Rmin Rmax sqrt Zfloor].
Tactic Notation "eval_py" "in" hyp(H) :=
  cbn -[pow Rplus Rminus Rmult Rdiv Ropp Rinv Rabs Rmin Rmax sqrt Zfloor] in H.

Ltac run_update := unfold Particle.update; simpl; case_ifs; simpl in *.

Lemma update_radius (p : Particle.t) (width height : R) :
  Particle.radius (fst (Particle.update p width height)) = Particle.radius p.
Proof. run_update; reflexivity. Qed.

Lemma update_mass (p : Particle.t) (width height : R) :
  Particle.mass (fst (Particle.update p width height)) = Particle.mass p.
Proof. run_update; reflexivity. Qed.



(** C2, counterexample.  A particle that overlaps the left wall while
    already moving away from it (x = 3, vx = 1, radius 5) has its leading
    edge behind the wall after the advance, is clamped, and keeps its
    velocity: the component is not negated. *)
Lemma update_contact_without_negation :
  let p := Particle.mk 3 50 1 0 5 1 0 5 in
  let p' := fst (Particle.update p 100 100) in
  Particle.x p + Particle.vx p - Particle.radius p < 0 /\
  Particle.x p' = Particle.radius p /\
  Particle.vx p' <> - Particle.vx p.
Proof.
  run_update; repeat split; try lra.
  all: rewrite Rabs_pos_eq; lra.
Qed.

(** C2, amended.  After the advance by the velocity, each axis is handled
    on its own.  Behind the low wall: position [radius], velocity component
    [|v|].  Otherwise beyond the high wall: position [dim - radius],
    velocity component [-|v|].  Otherwise the advanced position and the
    velocity are kept.  The new component is the negation of the old one
    whenever the old one pointed at the wall touched.  The flag returned is
    true exactly when one of the four wall tests succeeded. *)
Theorem update_wall_response (p : Particle.t) (width height : R) :
  let p' := fst (Particle.update p width height) in
  let hit := snd (Particle.update p width height) in
  let r := Particle.radius p in
  let x1 := Particle.x p + Particle.vx p in
  let y1 := Particle.y p + Particle.vy p in
  (* horizontal axis *)
  (x1 - r < 0 ->
     Particle.x p' = r /\ Particle.vx p' = Rabs (Particle.vx p) /\
     (Particle.vx p <= 0 -> Particle.vx p' = - Particle.vx p)) /\
  (~ x1 - r < 0 -> x1 + r > width ->
     Particle.x p' = width - r /\ Particle.vx p' = - Rabs (Particle.vx p) /\
     (0 <= Particle.vx p -> Particle.vx p' = - Particle.vx p)) /\
  (~ x1 - r < 0 -> ~ x1 + r > width ->
     Particle.x p' = x1 /\ Particle.vx p' = Particle.vx p) /\
  (* vertical axis *)
  (y1 - r < 0 ->
     Particle.y p' = r /\ Particle.vy p' = Rabs (Particle.vy p) /\
     (Particle.vy p <= 0 -> Particle.vy p' = - Particle.vy p)) /\
  (~ y1 - r < 0 -> y1 + r > height ->
     Particle.y p' = height - r /\ Particle.vy p' = - Rabs (Particle.vy p) /\
     (0 <= Particle.vy p -> Particle.vy p' = - Particle.vy p)) /\
  (~ y1 - r < 0 -> ~ y1 + r > height ->
     Particle.y p' = y1 /\ Particle.vy p' = Particle.vy p) /\
  (* returned flag *)
  (hit = true <->
     x1 - r < 0 \/ x1 + r > width \/ y1 - r < 0 \/ y1 + r > height).
Proof.
  run_update.
  all: repeat split; intros; try contradiction; try reflexivity; try lra.
  all: try (rewrite Rabs_left1 by assumption; reflexivity).
  all: try (rewrite Rabs_pos_eq by assumption; reflexivity).
  all: try (left; assumption).
  all: try (right; left; assumption).
  all: try (right; right; left; assumption).
  all: try (right; right; right; assumption).
  all: try discriminate.
  all: intuition lra.
Qed.

(** C2, amended, for a particle that starts within the walls: every wall
    contact negates the velocity component of its axis. *)
Lemma update_negates_from_inside (p : Particle.t) (width height : R) :
  let p' := fst (Particle.update p width height) in
  let r := Particle.radius p in
  r <= Particle.x p <= width - r ->
  r <= Particle.y p <= height - r ->
  (Particle.x p + Particle.vx p - r < 0 \/ Particle.x p + Particle.vx p + r > width ->
     Particle.vx p' = - Particle.vx p) /\
  (Particle.y p + Particle.vy p - r < 0 \/ Particle.y p + Particle.vy p + r > height ->
     Particle.vy p' = - Particle.vy p).
Proof.
  intros p' r Hx Hy. subst p' r.
  run_update; split; intros; try lra.
  all: try (rewrite Rabs_left1 by lra; reflexivity).
  all: try (rewrite Rabs_pos_eq by lra; reflexivity).
Qed.

Lemma update_wall_response_witness :
  let p := Particle.mk 6 50 (-4) 0 5 1 0 5 in
  Particle.x (fst (Particle.update p 100 100)) = 5 /\
  Particle.vx (fst (Particle.update p 100 100)) = 4.
Proof.
  pose proof (update_wall_response (Particle.mk 6 50 (-4) 0 5 1 0 5) 100 100) as H.
  simpl in H. destruct H as [H _].
  destruct H as (Hx & _ & Hv); [lra|].
  split; [exact Hx|]. rewrite Hv; lra.
Defined.

(** C7.  Wall reflections keep the squared speed: after any number of
    [update] calls against fixed bounds, [vx^2 + vy^2] is what it was. *)
Theorem update_n_speed_constant (n : nat) (p : Particle.t) (width height : R) :
  Particle.vx (update_n n p width height) ^ 2
  + Particle.vy (update_n n p width height) ^ 2
  = Particle.vx p ^ 2 + Particle.vy p ^ 2.
Proof.
  revert p. induction n as [|n IH]; intros p; simpl update_n; [reflexivity|].
  rewrite IH. clear IH.
  assert (Habs : forall v, Rabs v ^ 2 = v ^ 2).
  { intros v. rewrite <- !Rsqr_pow2. symmetry. apply Rsqr_abs. }
  assert (Hneg : forall v, (- Rabs v) ^ 2 = v ^ 2).
  { intros v. rewrite <- (Habs v). ring. }
  run_update; rewrite ?Habs, ?Hneg; reflexivity.
Qed.

(** ** check_particle_collision *)

(** What a call on two distinct objects can return: either nothing was
    touched, or the pair was resolved with the values below. *)
Lemma resolve_pair_inv (p1 p2 p1' p2' : Particle.t) (b : bool) :
  resolve_pair p1 p2 = Ok (b, p1', p2') ->
  (b = false /\ p1' = p1 /\ p2' = p2) \/
  (b = true /\
   let d := centre_distance p1 p2 in
   let r12 := Particle.radius p1 + Particle.radius p2 in
   let nx := (Particle.x p2 - Particle.x p1) / d in
   let ny := (Particle.y p2 - Particle.y p1) / d in
   let m1 := Particle.mass p1 in
   let m2 := Particle.mass p2 in
   let a1 := Particle.vx p1 * nx + Particle.vy p1 * ny in
   let a2 := Particle.vx p2 * nx + Particle.vy p2 * ny in
   let v1n := ((m1 - m2) * a1 + 2 * m2 * a2) / (m1 + m2) in
   let v2n := ((m2 - m1) * a2 + 2 * m1 * a1) / (m1 + m2) in
   let v1t := Particle.vx p1 * - ny + Particle.vy p1 * nx in
   let v2t := Particle.vx p2 * - ny + Particle.vy p2 * nx in
   d <> 0 /\ d < r12 /\ m1 + m2 <> 0 /\
   p1' = Particle.mk (Particle.x p1 - 0.5 * (r12 - d) * nx)
                     (Particle.y p1 - 0.5 * (r12 - d) * ny)
                     (v1n * nx + v1t * - ny) (v1n * ny + v1t * nx)
                     (Particle.radius p1) (Particle.mass p1)
                     (Particle.cell_x p1) (Particle.cell_y p1) /\
   p2' = Particle.mk (Particle.x p2 + 0.5 * (r12 - d) * nx)
                     (Particle.y p2 + 0.5 * (r12 - d) * ny)
                     (v2n * nx + v2t * - ny) (v2n * ny + v2t * nx)
                     (Particle.radius p2) (Particle.mass p2)
                     (Particle.cell_x p2) (Particle.cell_y p2)).
Proof.
  unfold resolve_pair, centre_distance, np_div.
  set (d := sqrt _).
  destruct (Rlt_dec _ _) as [Hlt|Hge]; [|intros H; inversion H; subst; left; auto].
  destruct (Req_dec_T d 0) as [Hd|Hd]; [simpl; discriminate|]. simpl.
  destruct (Rge_dec _ 0) as [Hn|Hn]; [intros H; inversion H; subst; left; auto|].
  destruct (Req_dec_T (_ + _) 0) as [Hm|Hm]; [simpl; discriminate|]. simpl.
  destruct (Rgt_dec _ 0) as [Ho|Ho]; [|exfalso; simpl in Ho; lra].
  intros H; inversion H; subst. right. repeat split; auto.
Qed.

Lemma resolve_pair_apart (p1 p2 : Particle.t) :
  ~ centre_distance p1 p2 < Particle.radius p1 + Particle.radius p2 ->
  resolve_pair p1 p2 = Ok (false, p1, p2).
Proof.
  unfold resolve_pair, centre_distance. intros H.
  destruct (Rlt_dec _ _); [contradiction|reflexivity].
Qed.

Lemma centre_distance_sym (p1 p2 : Particle.t) :
  centre_distance p1 p2 = centre_distance p2 p1.
Proof. unfold centre_distance. f_equal. ring. Qed.

Lemma centre_distance_sqr (p1 p2 : Particle.t) :
  centre_distance p1 p2 * centre_distance p1 p2
  = (Particle.x p2 - Particle.x p1) ^ 2 + (Particle.y p2 - Particle.y p1) ^ 2.
Proof.
  unfold centre_distance. apply sqrt_sqrt.
  pose proof (pow2_ge_0 (Particle.x p2 - Particle.x p1)).
  pose proof (pow2_ge_0 (Particle.y p2 - Particle.y p1)). lra.
Qed.

Lemma centre_distance_nonneg (p1 p2 : Particle.t) : 0 <= centre_distance p1 p2.
Proof. apply sqrt_pos. Qed.



(** What a call on two references can return. *)
Lemma check_particle_collision_inv (st st' : list Particle.t) (r1 r2 : ref)
    (b : bool) :
  check_particle_collision st r1 r2 = Ok (b, st') ->
  (r1 = r2 /\ b = false /\ st' = st) \/
  (r1 <> r2 /\
   exists p1 p2 p1' p2',
     st !! r1 = Some p1 /\ st !! r2 = Some p2 /\
     resolve_pair p1 p2 = Ok (b, p1', p2') /\
     st' = <[r2:=p2']> (<[r1:=p1']> st)).
Proof.
  unfold check_particle_collision.
  destruct (decide (r1 = r2)) as [He|Hne].
  - intros H; inversion H; subst. left. auto.
  - destruct (st !! r1) as [p1|] eqn:H1; [|discriminate].
    destruct (st !! r2) as [p2|] eqn:H2; [|discriminate].
    destruct (resolve_pair p1 p2) as [[[c p1'] p2']|e] eqn:Hr; simpl; [|discriminate].
    intros H; inversion H; subst. right. split; [assumption|].
    exists p1, p2, p1', p2'. auto.
Qed.

Lemma store_after_writes (st : list Particle.t) (r1 r2 : ref)
    (p1 p2 p1' p2' : Particle.t) :
  r1 <> r2 -> st !! r1 = Some p1 -> st !! r2 = Some p2 ->
  <[r2:=p2']> (<[r1:=p1']> st) !! r1 = Some p1' /\
  <[r2:=p2']> (<[r1:=p1']> st) !! r2 = Some p2'.
Proof.
  intros Hne H1 H2.
  apply lookup_lt_Some in H1. apply lookup_lt_Some in H2. split.
  - rewrite list_lookup_insert_ne by auto.
    apply list_lookup_insert_eq. assumption.
  - apply list_lookup_insert_eq. rewrite length_insert. assumption.
Qed.

(** After a resolution the centres are exactly one sum of radii apart. *)
Lemma resolve_pair_settled (p1 p2 p1' p2' : Particle.t) :
  resolve_pair p1 p2 = Ok (true, p1', p2') ->
  centre_distance p1' p2' = Particle.radius p1' + Particle.radius p2'.
Proof.
  intros H. apply resolve_pair_inv in H.
  destruct H as [[H _]|[_ H]]; [discriminate|].
  cbv zeta in H. destruct H as (Hd & Hlt & _ & -> & ->).
  pose proof (centre_distance_sqr p1 p2) as Hdd.
  pose proof (centre_distance_nonneg p1 p2) as Hpos.
  set (d := centre_distance p1 p2) in *.
  unfold centre_distance at 1.
  cbn [Particle.x Particle.y Particle.radius].
  set (dx := Particle.x p2 - Particle.x p1) in *.
  set (dy := Particle.y p2 - Particle.y p1) in *.
  set (r12 := Particle.radius p1 + Particle.radius p2) in *.
  change 0.5 with (5 / 10).
  replace (_ + _) with (r12 * r12).
  - apply sqrt_square. lra.
  - replace (Particle.x p2 + 5 / 10 * (r12 - d) * (dx / d)
             - (Particle.x p1 - 5 / 10 * (r12 - d) * (dx / d)))
      with (dx * r12 / d) by (unfold dx; field; assumption).
    replace (Particle.y p2 + 5 / 10 * (r12 - d) * (dy / d)
             - (Particle.y p1 - 5 / 10 * (r12 - d) * (dy / d)))
      with (dy * r12 / d) by (unfold dy; field; assumption).
    replace ((dx * r12 / d) ^ 2 + (dy * r12 / d) ^ 2)
      with (r12 * r12 * ((dx ^ 2 + dy ^ 2) / (d * d))) by (field; assumption).
    rewrite <- Hdd. field. assumption.
Qed.


(** C10.  A resolved pair is settled: a second call right after a
    resolution, in either argument order, finds the centres exactly one sum
    of radii apart, returns false and changes nothing. *)
Theorem collision_resolution_settles (st st' : list Particle.t) (r1 r2 : ref) :
  check_particle_collision st r1 r2 = Ok (true, st') ->
  check_particle_collision st' r1 r2 = Ok (false, st') /\
  check_particle_collision st' r2 r1 = Ok (false, st').
Proof.
  intros H. apply check_particle_collision_inv in H.
  destruct H as [(_ & H & _)|(Hne & p1 & p2 & p1' & p2' & H1 & H2 & Hr & ->)];
    [discriminate|].
  destruct (store_after_writes st r1 r2 p1 p2 p1' p2' Hne H1 H2) as [H1' H2'].
  apply resolve_pair_settled in Hr.
  set (st' := <[r2:=p2']> (<[r1:=p1']> st)) in *.
  assert (Hid12 : <[r2:=p2']> (<[r1:=p1']> st') = st')
    by (rewrite (list_insert_id st' r1 p1') by assumption;
        apply list_insert_id; assumption).
  assert (Hid21 : <[r1:=p1']> (<[r2:=p2']> st') = st')
    by (rewrite (list_insert_id st' r2 p2') by assumption;
        apply list_insert_id; assumption).
  unfold check_particle_collision. split.
  - destruct (decide (r1 = r2)); [contradiction|].
    rewrite H1', H2', resolve_pair_apart by lra. simpl.
    rewrite Hid12. reflexivity.
  - destruct (decide (r2 = r1)); [congruence|].
    rewrite H1', H2', resolve_pair_apart
      by (rewrite centre_distance_sym; lra). simpl.
    rewrite Hid21. reflexivity.
Qed.

(** The head-on pair: distance 8 < 10, so the call resolves; the normal
    velocities are exchanged and each particle is moved back by 1. *)
Lemma head_on_resolves :
  check_particle_collision head_on 0 1
  = Ok (true, [ Particle.mk 45 50 (-2) 0 5 1 4 5;
                Particle.mk 55 50 2 0 5 1 5 5 ]).
Proof.
  assert (Hd : sqrt ((54 - 46) ^ 2 + (50 - 50) ^ 2) = 8).
  { replace ((54 - 46) ^ 2 + (50 - 50) ^ 2) with (8 * 8) by lra.
    apply sqrt_square; lra. }
  unfold check_particle_collision, head_on. eval_py.
  unfold resolve_pair, np_div. eval_py. rewrite Hd.
  destruct (Rlt_dec 8 (5 + 5)); [|exfalso; lra].
  destruct (Req_dec_T 8 0); [exfalso; lra|]. eval_py.
  destruct (Rge_dec _ 0); [exfalso; lra|].
  destruct (Req_dec_T (1 + 1) 0); [exfalso; lra|]. eval_py.
  destruct (Rgt_dec _ 0); [|exfalso; lra].
  eval_py. unfold Particle.set_x, Particle.set_y, Particle.set_vx, Particle.set_vy.
  eval_py. change 0.5 with (5 / 10). repeat f_equal; field.
Qed.


Lemma collision_resolution_settles_witness :
  let st' := [ Particle.mk 45 50 (-2) 0 5 1 4 5;
               Particle.mk 55 50 2 0 5 1 5 5 ] in
  check_particle_collision st' 0 1 = Ok (false, st') /\
  check_particle_collision st' 1 0 = Ok (false, st').
Proof.
  exact (collision_resolution_settles _ _ _ _ head_on_resolves).
Defined.







(** ** Simulation.resize *)

Lemma resize_particle_ok (width height old_width old_height : R)
    (p : Particle.t) :
  old_width <> 0 -> old_height <> 0 ->
  Simulation.resize_particle width height old_width old_height p
  = Ok (rescaled width height (width / old_width) (height / old_height) p).
Proof.
  intros Hw Hh. unfold Simulation.resize_particle, py_div.
  destruct (Req_dec_T old_width 0); [contradiction|].
  destruct (Req_dec_T old_height 0); [contradiction|].
  reflexivity.
Qed.

Lemma resize_loop_ok (width height old_width old_height : R)
    (ps done : list Particle.t) :
  old_width <> 0 -> old_height <> 0 ->
  for_each ps done (fun done particle =>
    particle' ← Simulation.resize_particle width height old_width old_height
                  particle;
    Ok (done ++ [particle']))
  = Ok (done ++ map (rescaled width height (width / old_width)
                              (height / old_height)) ps).
Proof.
  intros Hw Hh. revert done.
  induction ps as [|p ps IH]; intros done; simpl.
  - rewrite app_nil_r. reflexivity.
  - rewrite resize_particle_ok by assumption. eval_py.
    rewrite IH, <- app_assoc. reflexivity.
Qed.

Lemma clamp_within (v r d : R) :
  2 * r <= d -> r <= Rmin (Rmax v r) (d - r) <= d - r.
Proof.
  intros H. split.
  - apply Rmin_glb; [apply Rmax_r | lra].
  - apply Rmin_r.
Qed.

(** [resize] on a simulation whose dimensions are not zero. *)
Lemma resize_ok (self : Simulation.t) (width height : R) :
  Simulation.width self <> 0 -> Simulation.height self <> 0 ->
  Simulation.resize self width height
  = Ok (Simulation.mk width height
          (map (rescaled width height (width / Simulation.width self)
                         (height / Simulation.height self))
               (Simulation.particles self))
          (Simulation.spatial_grid self) (width * height)
          (Simulation.pressure self) (Simulation.temperature self)
          (Simulation.collision_count self) (Simulation.time_elapsed self)).
Proof.
  intros Hw Hh. unfold Simulation.resize.
  rewrite resize_loop_ok by assumption. reflexivity.
Qed.



(** The ratios need non-zero old dimensions: with a particle to rescale and
    an old width of zero, [resize] raises [ZeroDivisionError]. *)
Lemma resize_zero_width_raises (self : Simulation.t) (width height : R) :
  Simulation.width self = 0 ->
  Simulation.particles self <> [] ->
  Simulation.resize self width height = Raise ZeroDivisionError.
Proof.
  intros Hw Hps. unfold Simulation.resize.
  destruct (Simulation.particles self) as [|p ps]; [contradiction|].
  simpl. unfold Simulation.resize_particle, py_div. rewrite Hw.
  destruct (Req_dec_T 0 0); [reflexivity|contradiction].
Qed.

(** The scenario in general: from 700 x 500 to 350 x 250 every coordinate
    is halved, then clamped, and a particle of radius at most 125 ends
    within the new walls. *)
Lemma resize_700x500_to_350x250 (self : Simulation.t) :
  Simulation.width self = 700 ->
  Simulation.height self = 500 ->
  exists self',
    Simulation.resize self 350 250 = Ok self' /\
    forall (i : nat) (p : Particle.t),
      Simulation.particles self !! i = Some p ->
      exists p',
        Simulation.particles self' !! i = Some p' /\
        Particle.x p'
          = Rmin (Rmax (Particle.x p * 0.5) (Particle.radius p))
                 (350 - Particle.radius p) /\
        Particle.y p'
          = Rmin (Rmax (Particle.y p * 0.5) (Particle.radius p))
                 (250 - Particle.radius p) /\
        (2 * Particle.radius p <= 250 ->
           Particle.radius p <= Particle.x p' <= 350 - Particle.radius p /\
           Particle.radius p <= Particle.y p' <= 250 - Particle.radius p).
Proof.
  intros Hw Hh. eexists. split; [apply resize_ok; rewrite ?Hw, ?Hh; lra|].
  cbn [Simulation.particles]. intros i p Hi. eexists. split.
  - rewrite list_lookup_fmap, Hi. reflexivity.
  - rewrite Hw, Hh. cbn [rescaled Particle.x Particle.y].
    replace (350 / 700) with 0.5 by (change 0.5 with (5 / 10); lra).
    replace (250 / 500) with 0.5 by (change 0.5 with (5 / 10); lra).
    split; [reflexivity|]. split; [reflexivity|].
    intros Hr. split; apply clamp_within; lra.
Qed.

(** ** Simulation.__init__ *)

Lemma uniform_within (low high u : R) :
  0 <= u < 1 -> low <= high -> low <= uniform low high u <= high.
Proof.
  intros Hu Hlh. unfold uniform.
  assert (0 <= (high - low) * u) by (apply Rmult_le_pos; lra).
  assert ((high - low) * u <= (high - low) * 1)
    by (apply Rmult_le_compat_l; lra).
  lra.
Qed.

Lemma init_ok (width height : R) (rnd : nat -> R) :
  Simulation.init width height rnd
  = Ok (Simulation.mk width height
          (map (Simulation.random_particle width height rnd)
               (seq 0 PARTICLE_COUNT))
          (SpatialGrid.init width height) (width * height) 0 0 0 0).
Proof. reflexivity. Qed.

Lemma init_particle (width height : R) (rnd : nat -> R) (k : nat)
    (p : Particle.t) :
  map (Simulation.random_particle width height rnd) (seq 0 PARTICLE_COUNT) !! k
    = Some p ->
  (k < PARTICLE_COUNT)%nat /\ p = Simulation.random_particle width height rnd k.
Proof.
  rewrite list_lookup_fmap. intros H.
  destruct (seq 0 PARTICLE_COUNT !! k) as [k'|] eqn:Hk; [|discriminate].
  apply lookup_seq in Hk. destruct Hk as [-> Hlt].
  simpl in H. inversion H. auto.
Qed.

(** C9, counterexample.  A 4 x 4 container cannot hold a particle of
    radius 5, and a container of width -100 and height 0 has no positive
    dimension; the constructor accepts both, and in the first the particle
    placed at x = 5 lies outside [[radius, width - radius]]. *)
Lemma init_accepts_bad_configuration :
  (exists self p,
     Simulation.init 4 4 (fun _ => 0) = Ok self /\
     Simulation.particles self !! 0%nat = Some p /\
     2 * Particle.radius p > Simulation.width self /\
     ~ (Particle.radius p <= Particle.x p
        <= Simulation.width self - Particle.radius p)) /\
  (exists self,
     Simulation.init (-100) 0 (fun _ => 0) = Ok self /\
     Simulation.width self = -100 /\ Simulation.height self = 0).
Proof.
  split.
  - eexists. eexists. split; [apply init_ok|]. split; [reflexivity|].
    eval_py. unfold uniform, PARTICLE_SIZE. split; lra.
  - eexists. split; [apply init_ok|]. split; reflexivity.
Qed.

(** C9, amended.  The constructor validates nothing and cannot fail: for
    any width and height it returns a simulation that stores them as given,
    with [volume = width * height], zeroed pressure, temperature and
    counters, and [PARTICLE_COUNT] particles of radius [PARTICLE_SIZE]
    placed at [uniform(radius, dim - radius)] without any clamping.  The
    placement satisfies the wall-containment bounds when both dimensions are
    at least one particle diameter. *)
Theorem init_accepts_every_configuration (width height : R) (rnd : nat -> R) :
  exists self,
    Simulation.init width height rnd = Ok self /\
    Simulation.width self = width /\
    Simulation.height self = height /\
    Simulation.volume self = width * height /\
    Simulation.pressure self = 0 /\
    Simulation.temperature self = 0 /\
    Simulation.collision_count self = 0%Z /\
    Simulation.time_elapsed self = 0 /\
    length (Simulation.particles self) = PARTICLE_COUNT /\
    (forall (k : nat) (p : Particle.t),
       Simulation.particles self !! k = Some p ->
       Particle.radius p = PARTICLE_SIZE /\
       Particle.x p
         = uniform PARTICLE_SIZE (width - PARTICLE_SIZE) (rnd (4 * k)%nat) /\
       Particle.y p
         = uniform PARTICLE_SIZE (height - PARTICLE_SIZE) (rnd (4 * k + 1)%nat)) /\
    ((forall n, 0 <= rnd n < 1) ->
     2 * PARTICLE_SIZE <= width ->
     2 * PARTICLE_SIZE <= height ->
     forall (k : nat) (p : Particle.t),
       Simulation.particles self !! k = Some p ->
       Particle.radius p <= Particle.x p <= width - Particle.radius p /\
       Particle.radius p <= Particle.y p <= height - Particle.radius p).
Proof.
  eexists. split; [apply init_ok|].
  cbn [Simulation.width Simulation.height Simulation.volume
       Simulation.pressure Simulation.temperature Simulation.collision_count
       Simulation.time_elapsed Simulation.particles].
  repeat (split; [reflexivity|]).
  split.
  - intros k p Hk. apply init_particle in Hk. destruct Hk as [_ ->].
    repeat split; reflexivity.
  - intros Hrnd Hw Hh k p Hk. apply init_particle in Hk. destruct Hk as [_ ->].
    unfold Simulation.random_particle.
    cbn [Particle.init Particle.x Particle.y Particle.radius].
    split; apply uniform_within; auto; lra.
Qed.

Lemma init_accepts_every_configuration_witness :
  exists self,
    Simulation.init 700 500 (fun _ => 0.5) = Ok self /\
    forall (k : nat) (p : Particle.t),
      Simulation.particles self !! k = Some p ->
      Particle.radius p <= Particle.x p <= 700 - Particle.radius p /\
      Particle.radius p <= Particle.y p <= 500 - Particle.radius p.
Proof.
  destruct (init_accepts_every_configuration 700 500 (fun _ => 0.5))
    as (self & Hi & _ & _ & _ & _ & _ & _ & _ & _ & _ & Hin).
  exists self. split; [exact Hi|].
  apply Hin.
  - intros _. change 0.5 with (5 / 10). lra.
  - unfold PARTICLE_SIZE. lra.
  - unfold PARTICLE_SIZE. lra.
Defined.

(** ** SpatialGrid *)

Lemma norm_index_in_range (len : nat) (i : Z) :
  (0 <= i < Z.of_nat len)%Z -> norm_index len i = Some (Z.to_nat i).
Proof.
  intros [H0 H1]. unfold norm_index.
  rewrite (proj2 (Z.leb_le 0 i) H0), (proj2 (Z.ltb_lt i _) H1).
  reflexivity.
Qed.

Lemma norm_index_empty (i : Z) : norm_index 0 i = None.
Proof.
  unfold norm_index. change (Z.of_nat 0) with 0%Z. change (- 0)%Z with 0%Z.
  destruct (Z.ltb_spec i 0) as [Hlt|Hge].
  - rewrite (proj2 (Z.leb_gt 0 i) Hlt). reflexivity.
  - rewrite !andb_false_r. reflexivity.
Qed.

Lemma getitem_in_range {A : Type} (l : list A) (i : Z) (a : A) :
  (0 <= i)%Z -> l !! Z.to_nat i = Some a -> getitem l i = Ok a.
Proof.
  intros H0 Hl. unfold getitem.
  pose proof (lookup_lt_Some _ _ _ Hl) as Hlt.
  rewrite norm_index_in_range by lia. rewrite Hl. reflexivity.
Qed.

Lemma getitem_empty {A : Type} (i : Z) : getitem (@nil A) i = Raise IndexError.
Proof. unfold getitem. simpl. rewrite norm_index_empty. reflexivity. Qed.

Lemma setitem_in_range {A : Type} (l : list A) (i : Z) (a : A) :
  (0 <= i < Z.of_nat (length l))%Z -> setitem l i a = <[Z.to_nat i:=a]> l.
Proof.
  intros H. unfold setitem. rewrite norm_index_in_range by assumption.
  reflexivity.
Qed.

Lemma elem_of_py_range (lo hi z : Z) :
  z ∈ py_range lo hi <-> (lo <= z < hi)%Z.
Proof.
  unfold py_range. rewrite list_elem_of_In, in_map_iff. split.
  - intros (k & <- & Hk). apply in_seq in Hk. lia.
  - intros H. exists (Z.to_nat (z - lo)). split; [lia|].
    apply in_seq. lia.
Qed.

Lemma cell_index_range (cs v : R) (n : Z) :
  (1 <= n)%Z -> (0 <= cell_index cs v n < n)%Z.
Proof. unfold cell_index. lia. Qed.

Lemma grid_wf_init (width height : R) : grid_wf (SpatialGrid.init width height).
Proof.
  unfold grid_wf, SpatialGrid.init. cbn [SpatialGrid.cell_size
    SpatialGrid.cols SpatialGrid.rows SpatialGrid.grid].
  split; [reflexivity|]. split; [apply length_replicate|].
  intros c column H. apply lookup_replicate in H. destruct H as [-> _].
  apply length_replicate.
Qed.

Lemma cell_at_init (width height : R) (c w : nat) :
  cell_at (SpatialGrid.grid (SpatialGrid.init width height)) c w = [].
Proof.
  unfold cell_at, SpatialGrid.init. cbn [SpatialGrid.grid].
  destruct (replicate _ _ !! c) as [column|] eqn:Hc; [|reflexivity].
  apply lookup_replicate in Hc. destruct Hc as [-> _].
  destruct (replicate _ _ !! w) as [cell|] eqn:Hw; [|reflexivity].
  apply lookup_replicate in Hw. destruct Hw as [-> _]. reflexivity.
Qed.

(** Appending to one cell: that cell grows, the others are untouched. *)
Lemma cell_at_write (grid : list (list (list ref))) (column : list (list ref))
    (cell : list ref) (c w c' w' : nat) :
  grid !! c = Some column -> (w < length column)%nat ->
  cell_at (<[c:=<[w:=cell]> column]> grid) c' w'
  = if decide (c' = c /\ w' = w) then cell else cell_at grid c' w'.
Proof.
  intros Hc Hwl. unfold cell_at.
  pose proof (lookup_lt_Some _ _ _ Hc) as Hcl.
  destruct (decide (c' = c)) as [->|Hne].
  - rewrite list_lookup_insert_eq by assumption.
    destruct (decide (w' = w)) as [->|Hne'].
    + rewrite list_lookup_insert_eq by assumption.
      rewrite decide_True by auto. reflexivity.
    + rewrite list_lookup_insert_ne by auto.
      rewrite decide_False by tauto. rewrite Hc. reflexivity.
  - rewrite list_lookup_insert_ne by auto.
    rewrite decide_False by tauto. reflexivity.
Qed.

(** [insert] into a well-formed grid with at least one column and one row:
    the reference is appended to the cell of the particle. *)
Lemma insert_spec (g : SpatialGrid.t) (r : ref) (p : Particle.t) :
  grid_wf g ->
  (1 <= SpatialGrid.cols g)%Z -> (1 <= SpatialGrid.rows g)%Z ->
  exists g',
    SpatialGrid.insert g r p = Ok g' /\
    grid_wf g' /\
    SpatialGrid.cols g' = SpatialGrid.cols g /\
    SpatialGrid.rows g' = SpatialGrid.rows g /\
    forall c w : nat,
      cell_at (SpatialGrid.grid g') c w
      = if decide
             (c = Z.to_nat (cell_index CELL_SIZE (Particle.x p) (SpatialGrid.cols g)) /\
              w = Z.to_nat (cell_index CELL_SIZE (Particle.y p) (SpatialGrid.rows g)))
        then cell_at (SpatialGrid.grid g) c w ++ [r]
        else cell_at (SpatialGrid.grid g) c w.
Proof.
  intros (Hcs & Hlen & Hcol) Hc Hr.
  unfold SpatialGrid.insert, int_floordiv. rewrite Hcs.
  destruct (Req_dec_T CELL_SIZE 0) as [H0|_];
    [unfold CELL_SIZE, PARTICLE_SIZE in H0; lra|].
  eval_py.
  fold (cell_index CELL_SIZE (Particle.x p) (SpatialGrid.cols g)).
  fold (cell_index CELL_SIZE (Particle.y p) (SpatialGrid.rows g)).
  pose proof (cell_index_range CELL_SIZE (Particle.x p) _ Hc) as Hci.
  pose proof (cell_index_range CELL_SIZE (Particle.y p) _ Hr) as Hri.
  set (ci := cell_index CELL_SIZE (Particle.x p) (SpatialGrid.cols g)) in *.
  set (ri := cell_index CELL_SIZE (Particle.y p) (SpatialGrid.rows g)) in *.
  destruct (lookup_lt_is_Some_2 (SpatialGrid.grid g) (Z.to_nat ci))
    as [column Hcolumn]; [lia|].
  pose proof (Hcol _ _ Hcolumn) as Hcl.
  destruct (lookup_lt_is_Some_2 column (Z.to_nat ri)) as [cell Hcell]; [lia|].
  rewrite (getitem_in_range _ _ _ (proj1 Hci) Hcolumn). eval_py.
  rewrite (getitem_in_range _ _ _ (proj1 Hri) Hcell). eval_py.
  rewrite (setitem_in_range (SpatialGrid.grid g)) by lia.
  rewrite (setitem_in_range column) by lia.
  eexists. split; [reflexivity|]. unfold grid_wf.
  cbn [SpatialGrid.cell_size SpatialGrid.cols SpatialGrid.rows SpatialGrid.grid].
  split; [|split; [reflexivity|split; [reflexivity|]]].
  - split; [reflexivity|]. split; [rewrite length_insert; assumption|].
    intros c column' Hc'.
    destruct (decide (c = Z.to_nat ci)) as [->|Hne].
    + rewrite list_lookup_insert_eq in Hc' by lia.
      inversion Hc'. rewrite length_insert. assumption.
    + rewrite list_lookup_insert_ne in Hc' by auto. eapply Hcol; eassumption.
  - intros c w. rewrite (cell_at_write _ _ _ _ _ c w Hcolumn) by lia.
    destruct (decide (c = Z.to_nat ci /\ w = Z.to_nat ri)) as [[-> ->]|Hne].
    + unfold cell_at. rewrite Hcolumn, Hcell. reflexivity.
    + reflexivity.
Qed.

(** [insert] raises [IndexError] on a grid without columns or rows. *)
Lemma insert_Ok_dims (g g' : SpatialGrid.t) (r : ref) (p : Particle.t) :
  grid_wf g -> SpatialGrid.insert g r p = Ok g' ->
  (1 <= SpatialGrid.cols g)%Z /\ (1 <= SpatialGrid.rows g)%Z.
Proof.
  intros (Hcs & Hlen & Hcol).
  unfold SpatialGrid.insert, int_floordiv. rewrite Hcs.
  destruct (Req_dec_T CELL_SIZE 0) as [H0|_];
    [unfold CELL_SIZE, PARTICLE_SIZE in H0; lra|].
  eval_py.
  destruct (SpatialGrid.grid g) as [|column0 grid0] eqn:Hg.
  { rewrite getitem_empty. discriminate. }
  assert (Hc : (1 <= SpatialGrid.cols g)%Z) by (simpl in Hlen; lia).
  fold (cell_index CELL_SIZE (Particle.x p) (SpatialGrid.cols g)).
  pose proof (cell_index_range CELL_SIZE (Particle.x p) _ Hc) as Hci.
  set (ci := cell_index CELL_SIZE (Particle.x p) (SpatialGrid.cols g)) in *.
  destruct (lookup_lt_is_Some_2 (column0 :: grid0) (Z.to_nat ci))
    as [column Hcolumn]; [lia|].
  rewrite (getitem_in_range _ _ _ (proj1 Hci) Hcolumn). eval_py.
  pose proof (Hcol _ _ Hcolumn) as Hcl.
  destruct column as [|cell0 column].
  { rewrite getitem_empty. discriminate. }
  intros _. simpl in Hcl. lia.
Qed.

(** The insertion loop of a rebuild keeps the shape of the grid, never
    removes a reference, and leaves every inserted reference in the cell of
    its particle. *)
Lemma insert_all_spec (rps : list (ref * Particle.t)) (g0 g : SpatialGrid.t) :
  grid_wf g0 ->
  for_each rps g0 (fun g '(r, particle) => SpatialGrid.insert g r particle)
    = Ok g ->
  grid_wf g /\
  SpatialGrid.cols g = SpatialGrid.cols g0 /\
  SpatialGrid.rows g = SpatialGrid.rows g0 /\
  (rps <> [] -> (1 <= SpatialGrid.cols g0)%Z /\ (1 <= SpatialGrid.rows g0)%Z) /\
  (forall (c w : nat) (r : ref),
     r ∈ cell_at (SpatialGrid.grid g0) c w ->
     r ∈ cell_at (SpatialGrid.grid g) c w) /\
  (forall (r : ref) (p : Particle.t),
     (r, p) ∈ rps ->
     r ∈ cell_at (SpatialGrid.grid g)
          (Z.to_nat (cell_index CELL_SIZE (Particle.x p) (SpatialGrid.cols g0)))
          (Z.to_nat (cell_index CELL_SIZE (Particle.y p) (SpatialGrid.rows g0)))).
Proof.
  revert g0. induction rps as [|[r p] rps IH]; intros g0 Hwf Hrun.
  - simpl in Hrun. inversion Hrun; subst g.
    split; [assumption|]. split; [reflexivity|]. split; [reflexivity|].
    split; [intros H; contradiction|]. split; [auto|].
    intros r p H. apply elem_of_nil in H. contradiction.
  - simpl in Hrun.
    destruct (SpatialGrid.insert g0 r p) as [g1|e] eqn:Hins;
      [|discriminate].
    eval_py in Hrun.
    destruct (insert_Ok_dims _ _ _ _ Hwf Hins) as [Hc Hr].
    destruct (insert_spec g0 r p Hwf Hc Hr)
      as (g1' & Hins' & Hwf1 & Hc1 & Hr1 & Hcell).
    rewrite Hins in Hins'. inversion Hins'; subst g1'. clear Hins'.
    destruct (IH g1 Hwf1 Hrun) as (Hwf' & Hc' & Hr' & _ & Hkeep & Hin).
    rewrite Hc1 in Hc', Hin. rewrite Hr1 in Hr', Hin.
    split; [assumption|]. split; [assumption|]. split; [assumption|].
    split; [auto|]. split.
    + intros c w r' Hr0. apply Hkeep. rewrite Hcell.
      destruct (decide _); [apply elem_of_app; left|]; assumption.
    + intros r' p' Hmem. apply elem_of_cons in Hmem.
      destruct Hmem as [Heq|Hmem]; [|apply Hin; assumption].
      inversion Heq; subst r' p'. apply Hkeep. rewrite Hcell.
      rewrite decide_True by auto. apply elem_of_app. right.
      apply list_elem_of_singleton. reflexivity.
Qed.

(** The other direction: on a grid with at least one column and one row
    the insertion loop cannot fail. *)
Lemma insert_all_ok (rps : list (ref * Particle.t)) (g0 : SpatialGrid.t) :
  grid_wf g0 ->
  (1 <= SpatialGrid.cols g0)%Z -> (1 <= SpatialGrid.rows g0)%Z ->
  exists g,
    for_each rps g0 (fun g '(r, particle) => SpatialGrid.insert g r particle)
      = Ok g.
Proof.
  revert g0. induction rps as [|[r p] rps IH]; intros g0 Hwf Hc Hr.
  - eexists. reflexivity.
  - destruct (insert_spec g0 r p Hwf Hc Hr)
      as (g1 & Hins & Hwf1 & Hc1 & Hr1 & _).
    simpl. rewrite Hins. eval_py. apply IH; [assumption|lia|lia].
Qed.

(** Every reference found in a cell after the insertion loop was there
    before or was inserted by the loop. *)
Lemma insert_all_refs (rps : list (ref * Particle.t)) (g0 g : SpatialGrid.t) :
  grid_wf g0 ->
  for_each rps g0 (fun g '(r, particle) => SpatialGrid.insert g r particle)
    = Ok g ->
  forall (c w : nat) (r : ref),
    r ∈ cell_at (SpatialGrid.grid g) c w ->
    r ∈ cell_at (SpatialGrid.grid g0) c w \/ exists p, (r, p) ∈ rps.
Proof.
  revert g0. induction rps as [|[r0 p0] rps IH]; intros g0 Hwf Hrun c w r Hmem.
  - simpl in Hrun. inversion Hrun; subst g. left. assumption.
  - simpl in Hrun.
    destruct (SpatialGrid.insert g0 r0 p0) as [g1|e] eqn:Hins;
      [|discriminate].
    eval_py in Hrun.
    destruct (insert_Ok_dims _ _ _ _ Hwf Hins) as [Hc Hr].
    destruct (insert_spec g0 r0 p0 Hwf Hc Hr)
      as (g1' & Hins' & Hwf1 & _ & _ & Hcell).
    rewrite Hins in Hins'. inversion Hins'; subst g1'. clear Hins'.
    destruct (IH g1 Hwf1 Hrun c w r Hmem) as [Hold|[p Hp]].
    + rewrite Hcell in Hold. destruct (decide _); [|left; assumption].
      apply elem_of_app in Hold. destruct Hold as [Hold|Hnew];
        [left; assumption|].
      apply list_elem_of_singleton in Hnew. subst r.
      right. exists p0. left.
    + right. exists p. right. assumption.
Qed.

Lemma rebuild_grid_spec (st : list Particle.t) (width height : R)
    (g : SpatialGrid.t) :
  Simulation.rebuild_grid st width height = Ok g ->
  grid_wf g /\
  (st <> [] -> (1 <= SpatialGrid.cols g)%Z /\ (1 <= SpatialGrid.rows g)%Z) /\
  (forall (r : ref) (p : Particle.t),
    st !! r = Some p ->
    r ∈ cell_at (SpatialGrid.grid g)
         (Z.to_nat (cell_index CELL_SIZE (Particle.x p) (SpatialGrid.cols g)))
         (Z.to_nat (cell_index CELL_SIZE (Particle.y p) (SpatialGrid.rows g)))) /\
  (forall (c w : nat) (r : ref),
    r ∈ cell_at (SpatialGrid.grid g) c w -> (r < length st)%nat).
Proof.
  unfold Simulation.rebuild_grid. intros Hrun.
  pose proof (insert_all_refs _ _ _ (grid_wf_init width height) Hrun) as Hrefs.
  destruct (insert_all_spec _ _ _ (grid_wf_init width height) Hrun)
    as (Hwf & Hc & Hr & Hdims & _ & Hin).
  rewrite <- Hc, <- Hr in Hin, Hdims.
  split; [assumption|]. split; [|split].
  - intros Hne. apply Hdims. destruct st; [contradiction|discriminate].
  - intros r p Hl. apply Hin.
    apply list_elem_of_lookup. exists r.
    apply lookup_zip_with_Some. exists r, p.
    split; [reflexivity|]. split; [|assumption].
    apply lookup_seq. split; [reflexivity|].
    apply lookup_lt_Some in Hl. assumption.
  - intros c w r Hmem. destruct (Hrefs c w r Hmem) as [Hinit|[p Hp]].
    + rewrite cell_at_init in Hinit. apply elem_of_nil in Hinit. contradiction.
    + apply list_elem_of_lookup in Hp. destruct Hp as [i Hi].
      apply lookup_zip_with_Some in Hi.
      destruct Hi as (r' & p' & Heq & Hseq & Hst).
      inversion Heq; subst r' p'.
      apply lookup_seq in Hseq. apply lookup_lt_Some in Hst. lia.
Qed.

(** Inner loop of [get_potential_collisions]: the cells of one column. *)
Lemma candidates_column (grid : list (list (list ref))) (column : list (list ref))
    (i : Z) (js : list Z) (acc : list ref) :
  (0 <= i)%Z -> grid !! Z.to_nat i = Some column ->
  (forall j, j ∈ js -> (0 <= j < Z.of_nat (length column))%Z) ->
  for_each js acc (fun potential_collisions j =>
    column ← getitem grid i;
    cell ← getitem column j;
    Ok (potential_collisions ++ cell))
  = Ok (acc ++ concat (map (fun j => cell_at grid (Z.to_nat i) (Z.to_nat j)) js)).
Proof.
  intros Hi Hcolumn.
  rewrite (getitem_in_range _ _ _ Hi Hcolumn). eval_py. revert acc.
  induction js as [|j js IH]; intros acc Hjs.
  - simpl. rewrite app_nil_r. reflexivity.
  - assert (Hj : (0 <= j < Z.of_nat (length column))%Z)
      by (apply Hjs; left).
    destruct (lookup_lt_is_Some_2 column (Z.to_nat j)) as [cell Hcell]; [lia|].
    simpl for_each.
    rewrite (getitem_in_range _ _ _ (proj1 Hj) Hcell). eval_py.
    rewrite IH by (intros j' Hj'; apply Hjs; right; assumption).
    simpl. unfold cell_at at 2. rewrite Hcolumn, Hcell.
    rewrite app_assoc. reflexivity.
Qed.

(** Both loops: the cells of a block of columns and rows. *)
Lemma candidates_block (g : SpatialGrid.t) (cs js : list Z) (acc : list ref) :
  grid_wf g ->
  (forall i, i ∈ cs -> (0 <= i < SpatialGrid.cols g)%Z) ->
  (forall j, j ∈ js -> (0 <= j < SpatialGrid.rows g)%Z) ->
  for_each cs acc (fun potential_collisions i =>
    for_each js potential_collisions (fun potential_collisions j =>
      column ← getitem (SpatialGrid.grid g) i;
      cell ← getitem column j;
      Ok (potential_collisions ++ cell)))
  = Ok (acc ++ concat (map (fun i =>
            concat (map (fun j =>
              cell_at (SpatialGrid.grid g) (Z.to_nat i) (Z.to_nat j)) js)) cs)).
Proof.
  intros (_ & Hlen & Hcol) Hcs' Hjs. revert acc.
  induction cs as [|i cs IH]; intros acc.
  - simpl. rewrite app_nil_r. reflexivity.
  - assert (Hi : (0 <= i < SpatialGrid.cols g)%Z) by (apply Hcs'; left).
    destruct (lookup_lt_is_Some_2 (SpatialGrid.grid g) (Z.to_nat i))
      as [column Hcolumn]; [lia|].
    pose proof (Hcol _ _ Hcolumn) as Hcl.
    simpl for_each.
    rewrite (candidates_column _ column) by
      (try assumption; try lia; intros j Hj; apply Hjs in Hj; lia).
    eval_py.
    rewrite IH by (intros i' Hi'; apply Hcs'; right; assumption).
    simpl. rewrite app_assoc. reflexivity.
Qed.

(** [get_potential_collisions] on a well-formed grid returns, and its result
    holds every reference stored in the block of cells around the particle. *)
Lemma get_potential_collisions_spec (g : SpatialGrid.t) (p : Particle.t) :
  grid_wf g ->
  (1 <= SpatialGrid.cols g)%Z -> (1 <= SpatialGrid.rows g)%Z ->
  exists l,
    SpatialGrid.get_potential_collisions g p = Ok l /\
    (forall (c w : Z) (r : ref),
      let col := cell_index CELL_SIZE (Particle.x p) (SpatialGrid.cols g) in
      let row := cell_index CELL_SIZE (Particle.y p) (SpatialGrid.rows g) in
      (0 <= c < SpatialGrid.cols g)%Z -> (col - 1 <= c <= col + 1)%Z ->
      (0 <= w < SpatialGrid.rows g)%Z -> (row - 1 <= w <= row + 1)%Z ->
      r ∈ cell_at (SpatialGrid.grid g) (Z.to_nat c) (Z.to_nat w) ->
      r ∈ l) /\
    (forall r : ref,
       r ∈ l -> exists c w : nat, r ∈ cell_at (SpatialGrid.grid g) c w).
Proof.
  intros Hwf Hc Hr.
  unfold SpatialGrid.get_potential_collisions, int_floordiv.
  destruct Hwf as (Hcs & Hrest). rewrite Hcs.
  destruct (Req_dec_T CELL_SIZE 0) as [H0|_];
    [unfold CELL_SIZE, PARTICLE_SIZE in H0; lra|].
  eval_py.
  fold (cell_index CELL_SIZE (Particle.x p) (SpatialGrid.cols g)).
  fold (cell_index CELL_SIZE (Particle.y p) (SpatialGrid.rows g)).
  set (col := cell_index CELL_SIZE (Particle.x p) (SpatialGrid.cols g)).
  set (row := cell_index CELL_SIZE (Particle.y p) (SpatialGrid.rows g)).
  rewrite candidates_block.
  - eexists. split; [reflexivity|]. split.
    + intros c w r Hc0 Hc1 Hw0 Hw1 Hmem. simpl.
      apply list_elem_of_In, in_concat.
      eexists. split.
      * apply in_map_iff. exists c. split; [reflexivity|].
        apply list_elem_of_In, elem_of_py_range. lia.
      * apply in_concat. eexists. split.
        -- apply in_map_iff. exists w. split; [reflexivity|].
           apply list_elem_of_In, elem_of_py_range. lia.
        -- apply list_elem_of_In. assumption.
    + intros r Hmem. simpl in Hmem.
      apply list_elem_of_In, in_concat in Hmem.
      destruct Hmem as (cells & Hcells & Hmem).
      apply in_map_iff in Hcells. destruct Hcells as (c & <- & _).
      apply in_concat in Hmem. destruct Hmem as (cell & Hcell & Hmem).
      apply in_map_iff in Hcell. destruct Hcell as (w & <- & _).
      exists (Z.to_nat c), (Z.to_nat w). apply list_elem_of_In. assumption.
  - split; assumption.
  - intros i Hi. apply elem_of_py_range in Hi. lia.
  - intros j Hj. apply elem_of_py_range in Hj. lia.
Qed.

Lemma rebuild_grid_ok (st : list Particle.t) (width height : R) :
  0 <= width -> 0 <= height ->
  exists g, Simulation.rebuild_grid st width height = Ok g.
Proof.
  intros Hw Hh. unfold Simulation.rebuild_grid.
  assert (HC : 0 < CELL_SIZE) by (unfold CELL_SIZE, PARTICLE_SIZE; lra).
  apply insert_all_ok; [apply grid_wf_init| |];
    unfold SpatialGrid.init;
    cbn [SpatialGrid.cols SpatialGrid.rows].
  - assert (0 <= Zfloor (width / CELL_SIZE))%Z; [|lia].
    apply Zfloor_lub. apply Rmult_le_pos; [assumption|].
    apply Rlt_le, Rinv_0_lt_compat. assumption.
  - assert (0 <= Zfloor (height / CELL_SIZE))%Z; [|lia].
    apply Zfloor_lub. apply Rmult_le_pos; [assumption|].
    apply Rlt_le, Rinv_0_lt_compat. assumption.
Qed.

(** Floors of reals less than 1 apart differ by at most 1. *)
Lemma Zfloor_close (a b : R) :
  Rabs (a - b) < 1 -> (Zfloor b - 1 <= Zfloor a <= Zfloor b + 1)%Z.
Proof.
  intros H. apply Rabs_def2 in H.
  pose proof (Zfloor_bound a) as Ha. pose proof (Zfloor_bound b) as Hb.
  split.
  - assert (Hlt : (Zfloor b < Zfloor a + 2)%Z); [|lia].
    apply lt_IZR. rewrite plus_IZR. lra.
  - assert (Hlt : (Zfloor a < Zfloor b + 2)%Z); [|lia].
    apply lt_IZR. rewrite plus_IZR. lra.
Qed.

(** Each coordinate difference is bounded by the distance. *)
Lemma axis_within_distance (p1 p2 : Particle.t) :
  Rabs (Particle.x p2 - Particle.x p1) <= centre_distance p1 p2 /\
  Rabs (Particle.y p2 - Particle.y p1) <= centre_distance p1 p2.
Proof.
  pose proof (centre_distance_sqr p1 p2) as Hdd.
  pose proof (centre_distance_nonneg p1 p2) as Hpos.
  set (d := centre_distance p1 p2) in *.
  set (dx := Particle.x p2 - Particle.x p1) in *.
  set (dy := Particle.y p2 - Particle.y p1) in *.
  simpl in Hdd.
  split; unfold Rabs; destruct (Rcase_abs _); nra.
Qed.

(** Two overlapping particles whose radii sum to at most the cell size lie
    in the same or in adjacent cells along each axis. *)
Lemma overlapping_cells_adjacent (pA pB : Particle.t) (cols rows : Z) :
  Particle.radius pA + Particle.radius pB <= CELL_SIZE ->
  centre_distance pA pB < Particle.radius pA + Particle.radius pB ->
  let colA := cell_index CELL_SIZE (Particle.x pA) cols in
  let colB := cell_index CELL_SIZE (Particle.x pB) cols in
  let rowA := cell_index CELL_SIZE (Particle.y pA) rows in
  let rowB := cell_index CELL_SIZE (Particle.y pB) rows in
  (colA - 1 <= colB <= colA + 1)%Z /\ (rowA - 1 <= rowB <= rowA + 1)%Z.
Proof.
  intros Hr Hd.
  assert (HC : 0 < CELL_SIZE) by (unfold CELL_SIZE, PARTICLE_SIZE; lra).
  destruct (axis_within_distance pA pB) as [Hx Hy].
  assert (Hqx : Rabs (Particle.x pB / CELL_SIZE - Particle.x pA / CELL_SIZE) < 1).
  { replace (Particle.x pB / CELL_SIZE - Particle.x pA / CELL_SIZE)
      with ((Particle.x pB - Particle.x pA) / CELL_SIZE) by (field; lra).
    unfold Rdiv. rewrite Rabs_mult, (Rabs_pos_eq (/ CELL_SIZE))
      by (apply Rlt_le, Rinv_0_lt_compat; assumption).
    apply (Rmult_lt_reg_r CELL_SIZE); [assumption|].
    rewrite Rmult_assoc, Rinv_l by lra. lra. }
  assert (Hqy : Rabs (Particle.y pB / CELL_SIZE - Particle.y pA / CELL_SIZE) < 1).
  { replace (Particle.y pB / CELL_SIZE - Particle.y pA / CELL_SIZE)
      with ((Particle.y pB - Particle.y pA) / CELL_SIZE) by (field; lra).
    unfold Rdiv. rewrite Rabs_mult, (Rabs_pos_eq (/ CELL_SIZE))
      by (apply Rlt_le, Rinv_0_lt_compat; assumption).
    apply (Rmult_lt_reg_r CELL_SIZE); [assumption|].
    rewrite Rmult_assoc, Rinv_l by lra. lra. }
  apply Zfloor_close in Hqx, Hqy.
  unfold cell_index. simpl. lia.
Qed.

(** Both candidate queries of an overlapping pair find the other particle. *)
Lemma overlapping_pair_found (st : list Particle.t) (width height : R)
    (g : SpatialGrid.t) (a b : ref) (pA pB : Particle.t) :
  Simulation.rebuild_grid st width height = Ok g ->
  st !! a = Some pA ->
  st !! b = Some pB ->
  Particle.radius pA + Particle.radius pB <= CELL_SIZE ->
  centre_distance pA pB < Particle.radius pA + Particle.radius pB ->
  exists l, SpatialGrid.get_potential_collisions g pA = Ok l /\ b ∈ l.
Proof.
  intros Hg Ha Hb Hr Hd.
  destruct (rebuild_grid_spec _ _ _ _ Hg) as (Hwf & Hdims & Hin & _).
  destruct Hdims as [Hc Hw]; [intros ->; discriminate|].
  destruct (get_potential_collisions_spec g pA Hwf Hc Hw)
    as (l & Hl & Hmem & _).
  exists l. split; [assumption|].
  destruct (overlapping_cells_adjacent pA pB (SpatialGrid.cols g)
              (SpatialGrid.rows g) Hr Hd) as [Hcol Hrow].
  simpl in Hcol, Hrow.
  pose proof (cell_index_range CELL_SIZE (Particle.x pB) _ Hc) as Hcb.
  pose proof (cell_index_range CELL_SIZE (Particle.y pB) _ Hw) as Hwb.
  eapply Hmem; [exact Hcb|exact Hcol|exact Hwb|exact Hrow|].
  apply Hin. assumption.
Qed.

(** C4.  Grid completeness: after a rebuild from the current positions,
    two particles whose centres are closer than the sum of their radii,
    that sum being at most the cell size, are both found by the candidate
    query of the other; in particular at least one query contains the
    other particle. *)
Theorem grid_completeness (st : list Particle.t) (width height : R)
    (g : SpatialGrid.t) (a b : ref) (pA pB : Particle.t) :
  Simulation.rebuild_grid st width height = Ok g ->
  st !! a = Some pA ->
  st !! b = Some pB ->
  Particle.radius pA + Particle.radius pB <= CELL_SIZE ->
  centre_distance pA pB < Particle.radius pA + Particle.radius pB ->
  (exists l, SpatialGrid.get_potential_collisions g pA = Ok l /\ b ∈ l) /\
  (exists l, SpatialGrid.get_potential_collisions g pB = Ok l /\ a ∈ l).
Proof.
  intros Hg Ha Hb Hr Hd. split.
  - eapply overlapping_pair_found; eassumption.
  - eapply overlapping_pair_found; try eassumption.
    + lra.
    + rewrite centre_distance_sym. lra.
Qed.

Lemma head_on_distance :
  centre_distance (Particle.mk 46 50 2 0 5 1 4 5)
                  (Particle.mk 54 50 (-2) 0 5 1 5 5) = 8.
Proof.
  unfold centre_distance. cbn [Particle.x Particle.y].
  replace ((54 - 46) ^ 2 + (50 - 50) ^ 2) with (8 * 8) by lra.
  apply sqrt_square; lra.
Qed.

Lemma grid_completeness_witness :
  exists g,
    Simulation.rebuild_grid head_on 100 100 = Ok g /\
    (exists l, SpatialGrid.get_potential_collisions g
                 (Particle.mk 46 50 2 0 5 1 4 5) = Ok l /\ 1%nat ∈ l) /\
    (exists l, SpatialGrid.get_potential_collisions g
                 (Particle.mk 54 50 (-2) 0 5 1 5 5) = Ok l /\ 0%nat ∈ l).
Proof.
  destruct (rebuild_grid_ok head_on 100 100) as [g Hg]; [lra|lra|].
  exists g. split; [exact Hg|].
  apply (grid_completeness head_on 100 100 g 0 1 _ _ Hg eq_refl eq_refl).
  - cbn [Particle.radius]. unfold CELL_SIZE, PARTICLE_SIZE. lra.
  - rewrite head_on_distance. cbn [Particle.radius]. lra.
Defined.

(** ** Simulation.update *)

Lemma for_each_idle {A S : Type} (xs : list A) (s : S)
    (body : S -> A -> result S) :
  (forall x, x ∈ xs -> body s x = Ok s) -> for_each xs s body = Ok s.
Proof.
  induction xs as [|x xs IH]; intros H; simpl; [reflexivity|].
  rewrite H by left. eval_py. apply IH. intros x' Hx'. apply H. right.
  assumption.
Qed.

(** A call on two stored particles that do not overlap changes nothing. *)
Lemma check_particle_collision_apart (st : list Particle.t) (r1 r2 : ref) :
  (r1 < length st)%nat -> (r2 < length st)%nat ->
  (forall p1 p2, r1 <> r2 -> st !! r1 = Some p1 -> st !! r2 = Some p2 ->
     ~ centre_distance p1 p2 < Particle.radius p1 + Particle.radius p2) ->
  check_particle_collision st r1 r2 = Ok (false, st).
Proof.
  intros H1 H2 Hapart. unfold check_particle_collision.
  destruct (decide (r1 = r2)) as [_|Hne]; [reflexivity|].
  destruct (lookup_lt_is_Some_2 st r1 H1) as [p1 Hp1].
  destruct (lookup_lt_is_Some_2 st r2 H2) as [p2 Hp2].
  rewrite Hp1, Hp2, resolve_pair_apart by (apply Hapart; assumption).
  eval_py. rewrite (list_insert_id st r1 p1) by assumption.
  rewrite (list_insert_id st r2 p2) by assumption. reflexivity.
Qed.

(** When no two particles overlap, the collision pass of a tick returns and
    leaves the store as it is. *)
Lemma resolve_collisions_idle (st : list Particle.t) (width height : R)
    (g : SpatialGrid.t) :
  Simulation.rebuild_grid st width height = Ok g ->
  (forall r1 r2 p1 p2, r1 <> r2 -> st !! r1 = Some p1 -> st !! r2 = Some p2 ->
     ~ centre_distance p1 p2 < Particle.radius p1 + Particle.radius p2) ->
  Simulation.resolve_collisions g st = Ok st.
Proof.
  intros Hg Hapart. unfold Simulation.resolve_collisions.
  destruct (rebuild_grid_spec _ _ _ _ Hg) as (Hwf & Hdims & _ & Hrefs).
  apply for_each_idle. intros r Hr.
  apply list_elem_of_In, in_seq in Hr.
  destruct (lookup_lt_is_Some_2 st r) as [p Hp]; [lia|]. rewrite Hp.
  destruct Hdims as [Hc Hw]; [intros ->; simpl in Hr; lia|].
  destruct (get_potential_collisions_spec g p Hwf Hc Hw)
    as (l & -> & _ & Hsound).
  eval_py. apply for_each_idle. intros other Hother.
  destruct (Hsound other Hother) as (c & w & Hcell).
  rewrite check_particle_collision_apart; [reflexivity|lia| |].
  - eapply Hrefs. eassumption.
  - intros p1 p2. apply Hapart.
Qed.

Lemma update_particles_length (ps : list Particle.t) (width height : R) :
  length (fst (Simulation.update_particles ps width height)) = length ps.
Proof.
  induction ps as [|p ps IH]; simpl; [reflexivity|].
  destruct (Particle.update p width height) as [p' hit].
  destruct (Simulation.update_particles ps width height) as [ps' n].
  simpl in *. rewrite IH. reflexivity.
Qed.

(** A tick returns when the container has non-negative dimensions, no two
    particles overlap after the wall pass, and the pressure sample, if this
    tick takes one, has a non-zero area to divide by. *)
Lemma update_ok (self : Simulation.t) (dt : R) :
  let st := fst (Simulation.update_particles (Simulation.particles self)
                   (Simulation.width self) (Simulation.height self)) in
  0 <= Simulation.width self -> 0 <= Simulation.height self ->
  (Simulation.time_elapsed self + dt >= 1 ->
     Simulation.width self * Simulation.height self <> 0) ->
  (forall r1 r2 p1 p2, r1 <> r2 -> st !! r1 = Some p1 -> st !! r2 = Some p2 ->
     ~ centre_distance p1 p2 < Particle.radius p1 + Particle.radius p2) ->
  exists self', Simulation.update self dt = Ok self'.
Proof.
  intros st Hw Hh Harea Hapart. subst st. unfold Simulation.update.
  destruct (Simulation.update_particles _ _ _) as [st wall_collisions].
  simpl in Hapart.
  destruct (rebuild_grid_ok st _ _ Hw Hh) as [g Hg]. rewrite Hg. eval_py.
  rewrite (resolve_collisions_idle _ _ _ _ Hg Hapart). eval_py.
  destruct (Rge_dec _ 1) as [Hge|Hlt]; [|eexists; reflexivity].
  unfold py_div. destruct (Req_dec_T _ 0) as [H0|_]; [|eexists; reflexivity].
  exfalso. specialize (Harea Hge).
  apply Rmult_integral in H0. destruct H0 as [H0|H0]; [|nra].
  apply Rmult_integral in H0. destruct H0 as [H0|H0]; [lra|nra].
Qed.

(** C5.  Pressure sampling in a tick that returns.  Let the window be the
    stored time plus [dt], and the hits the stored count plus the wall
    collisions of this tick.  If the window has reached 1.0, pressure becomes
    [hits / (window * width * height) * 1000] and the count and the timer
    are reset to zero; otherwise pressure is unchanged and count and timer
    keep accumulating.  In both cases temperature is
    [pressure * volume / (PARTICLE_COUNT * GAS_CONSTANT)] for the resulting
    pressure, and width, height and volume are untouched. *)
Theorem update_pressure_window (self self' : Simulation.t) (dt : R) :
  Simulation.update self dt = Ok self' ->
  let window := Simulation.time_elapsed self + dt in
  let hits :=
    (Simulation.collision_count self
     + snd (Simulation.update_particles (Simulation.particles self)
              (Simulation.width self) (Simulation.height self)))%Z in
  (window >= 1 ->
     Simulation.pressure self'
       = IZR hits / (window * Simulation.width self * Simulation.height self)
         * 1000 /\
     Simulation.collision_count self' = 0%Z /\
     Simulation.time_elapsed self' = 0) /\
  (~ window >= 1 ->
     Simulation.pressure self' = Simulation.pressure self /\
     Simulation.collision_count self' = hits /\
     Simulation.time_elapsed self' = window) /\
  Simulation.temperature self'
    = Simulation.pressure self' * Simulation.volume self'
      / (INR PARTICLE_COUNT * GAS_CONSTANT) /\
  Simulation.width self' = Simulation.width self /\
  Simulation.height self' = Simulation.height self /\
  Simulation.volume self' = Simulation.volume self.
Proof.
  unfold Simulation.update.
  destruct (Simulation.update_particles _ _ _) as [st wall_collisions].
  destruct (Simulation.rebuild_grid _ _ _) as [g|e]; [|discriminate]. eval_py.
  destruct (Simulation.resolve_collisions _ _) as [st'|e]; [|discriminate].
  eval_py.
  destruct (Rge_dec _ 1) as [Hge|Hlt].
  - unfold py_div. destruct (Req_dec_T _ 0) as [H0|_]; [discriminate|].
    eval_py. intros H. inversion H; subst self'. clear H. eval_py.
    repeat split; try reflexivity; intros; contradiction.
  - eval_py. intros H. inversion H; subst self'. clear H. eval_py.
    repeat split; try reflexivity; intros; contradiction.
Qed.

Lemma small_box_wall_pass :
  Simulation.update_particles (Simulation.particles small_box) 30 20
  = ([ Particle.mk 25 10 (-14) 0 5 1 2 1 ], 1%Z).
Proof.
  assert (H25 : Zfloor (25 / CELL_SIZE) = 2%Z).
  { apply Zfloor_eq. unfold CELL_SIZE, PARTICLE_SIZE. simpl. lra. }
  assert (H10 : Zfloor (10 / CELL_SIZE) = 1%Z).
  { apply Zfloor_eq. unfold CELL_SIZE, PARTICLE_SIZE. simpl. lra. }
  assert (Habs : - Rabs 14 = -14) by (rewrite Rabs_pos_eq; lra).
  unfold small_box, Simulation.update_particles, Particle.update. eval_py.
  destruct (Rlt_dec (12 + 14 - 5) 0); [exfalso; lra|].
  destruct (Rgt_dec (12 + 14 + 5) 30); [|exfalso; lra]. eval_py.
  destruct (Rlt_dec (10 + 0 - 5) 0); [exfalso; lra|].
  destruct (Rgt_dec (10 + 0 + 5) 20); [exfalso; lra|]. eval_py.
  replace (30 - 5) with 25 by lra. replace (10 + 0) with 10 by lra.
  rewrite H25, H10, Habs. reflexivity.
Qed.

Lemma update_pressure_window_witness :
  exists self',
    Simulation.update small_box (1 / 4) = Ok self' /\
    Simulation.pressure self' = 10 /\
    Simulation.collision_count self' = 0%Z /\
    Simulation.time_elapsed self' = 0 /\
    Simulation.temperature self' = 60.
Proof.
  destruct (update_ok small_box (1 / 4)) as [self' Hrun].
  - simpl. lra.
  - simpl. lra.
  - intros _. simpl. lra.
  - intros r1 r2 p1 p2 Hne H1 H2.
    apply lookup_lt_Some in H1, H2.
    rewrite update_particles_length in H1, H2. simpl in H1, H2. lia.
  - exists self'. split; [exact Hrun|].
    destruct (update_pressure_window _ _ _ Hrun)
      as (Hclose & _ & Htemp & _ & _ & Hvol).
    destruct Hclose as (Hp & Hc & Ht); [simpl; lra|].
    change (Simulation.width small_box) with 30 in Hp.
    change (Simulation.height small_box) with 20 in Hp.
    rewrite small_box_wall_pass in Hp.
    assert (Hp10 : Simulation.pressure self' = 10).
    { rewrite Hp. unfold small_box.
      cbn [snd Simulation.collision_count Simulation.time_elapsed].
      change (5 + 1)%Z with 6%Z. lra. }
    repeat (split; [assumption|]).
    rewrite Htemp, Hvol, Hp10. unfold PARTICLE_COUNT, GAS_CONSTANT.
    rewrite INR_IZR_INZ. change (Z.of_nat 100) with 100%Z.
    unfold small_box. cbn [Simulation.volume]. lra.
Defined.

(** * Further properties *)

(** ** check_particle_collision: the resolved pair *)




















Lemma check_particle_collision_frame (st st' : list Particle.t) (r1 r2 : ref) (b : bool) :
  check_particle_collision st r1 r2 = Ok (b, st') ->
  length st' = length st /\
  (forall k : ref, k <> r1 -> k <> r2 -> st' !! k = st !! k) /\
  (forall (k : ref) (p' : Particle.t),
     st' !! k = Some p' ->
     exists p, st !! k = Some p /\
       Particle.radius p' = Particle.radius p /\
       Particle.mass p' = Particle.mass p /\
       Particle.cell_x p' = Particle.cell_x p /\
       Particle.cell_y p' = Particle.cell_y p).
Proof.
  intros H. apply check_particle_collision_inv in H.
  destruct H as [(_ & _ & ->)|(Hne & p1 & p2 & p1' & p2' & H1 & H2 & Hr & ->)].
  { split; [reflexivity|]. split; [reflexivity|]. intros k p' Hk.
    exists p'. auto. }
  destruct (store_after_writes st r1 r2 p1 p2 p1' p2' Hne H1 H2) as [H1' H2'].
  split; [rewrite !length_insert; reflexivity|]. split.
  - intros k Hk1 Hk2. rewrite !list_lookup_insert_ne by auto. reflexivity.
  - assert (Hkeep :
      Particle.radius p1' = Particle.radius p1 /\
      Particle.mass p1' = Particle.mass p1 /\
      Particle.cell_x p1' = Particle.cell_x p1 /\
      Particle.cell_y p1' = Particle.cell_y p1 /\
      Particle.radius p2' = Particle.radius p2 /\
      Particle.mass p2' = Particle.mass p2 /\
      Particle.cell_x p2' = Particle.cell_x p2 /\
      Particle.cell_y p2' = Particle.cell_y p2).
    { apply resolve_pair_inv in Hr.
      destruct Hr as [(_ & -> & ->)|[_ Hr]]; [repeat split|].
      cbv zeta in Hr. destruct Hr as (_ & _ & _ & -> & ->). repeat split. }
    intros k p' Hk.
    destruct (decide (k = r2)) as [->|Hk2].
    + rewrite H2' in Hk. inversion Hk; subst p'. exists p2. tauto.
    + destruct (decide (k = r1)) as [->|Hk1].
      * rewrite H1' in Hk. inversion Hk; subst p'. exists p1. tauto.
      * rewrite !list_lookup_insert_ne in Hk by auto. exists p'. auto.
Qed.

(** X6.  A call touches nothing but the two particles it is given: the
    store keeps its length, every other particle is unchanged, and of the
    two particles themselves the radius, the mass and the cached cell
    indices are never written (so [cell_x], [cell_y] can be stale after a
    separation, until the next [update]). *)
Theorem collision_frame (st st' : list Particle.t) (r1 r2 : ref) (b : bool) :
  check_particle_collision st r1 r2 = Ok (b, st') ->
  length st' = length st /\
  (forall k : ref, k <> r1 -> k <> r2 -> st' !! k = st !! k) /\
  (forall (k : ref) (p' : Particle.t),
     st' !! k = Some p' ->
     exists p, st !! k = Some p /\
       Particle.radius p' = Particle.radius p /\
       Particle.mass p' = Particle.mass p /\
       Particle.cell_x p' = Particle.cell_x p /\
       Particle.cell_y p' = Particle.cell_y p).
Proof. exact (check_particle_collision_frame st st' r1 r2 b). Qed.

Lemma collision_frame_witness :
  exists st', check_particle_collision head_on 0 1 = Ok (true, st') /\
              length st' = length head_on.
Proof.
  eexists. split; [exact head_on_resolves|].
  exact (proj1 (collision_frame _ _ _ _ _ head_on_resolves)).
Defined.

(** Exchanging the two arguments exchanges the two results. *)
Lemma resolve_pair_swap (p1 p2 : Particle.t) :
  resolve_pair p2 p1
  = match resolve_pair p1 p2 with
    | Ok (b, p1', p2') => Ok (b, p2', p1')
    | Raise e => Raise e
    end.
Proof.
  unfold resolve_pair, np_div.
  replace ((Particle.x p1 - Particle.x p2) ^ 2
           + (Particle.y p1 - Particle.y p2) ^ 2)
    with ((Particle.x p2 - Particle.x p1) ^ 2
          + (Particle.y p2 - Particle.y p1) ^ 2) by ring.
  set (d := sqrt _).
  rewrite (Rplus_comm (Particle.radius p2) (Particle.radius p1)).
  destruct (Rlt_dec d _) as [Hlt|Hge]; [|reflexivity].
  destruct (Req_dec_T d 0) as [Hd|Hd]; [reflexivity|]. eval_py.
  set (dx := Particle.x p2 - Particle.x p1).
  set (dy := Particle.y p2 - Particle.y p1).
  replace (Particle.x p1 - Particle.x p2) with (- dx) by (unfold dx; ring).
  replace (Particle.y p1 - Particle.y p2) with (- dy) by (unfold dy; ring).
  replace ((Particle.vx p1 - Particle.vx p2) * (- dx / d)
           + (Particle.vy p1 - Particle.vy p2) * (- dy / d))
    with ((Particle.vx p2 - Particle.vx p1) * (dx / d)
          + (Particle.vy p2 - Particle.vy p1) * (dy / d))
    by (field; assumption).
  destruct (Rge_dec _ 0) as [Hn|Hn]; [reflexivity|].
  rewrite (Rplus_comm (Particle.mass p2) (Particle.mass p1)).
  destruct (Req_dec_T (_ + _) 0) as [Hm|Hm]; [reflexivity|]. eval_py.
  rewrite (Rplus_comm (Particle.radius p2) (Particle.radius p1)).
  destruct (Rgt_dec _ 0) as [Ho|Ho]; [|exfalso; lra].
  unfold Particle.set_x, Particle.set_y, Particle.set_vx, Particle.set_vy.
  eval_py. change 0.5 with (5 / 10).
  f_equal.
  repeat match goal with
         | |- (_, _) = (_, _) => apply f_equal2
         | |- Particle.mk _ _ _ _ _ _ _ _ = Particle.mk _ _ _ _ _ _ _ _ =>
             f_equal
         end;
    try reflexivity; field; auto.
Qed.

(** X7.  The order of the two arguments does not matter: the call on
    [(r2, r1)] returns the same flag, the same store, or the same exception
    as the call on [(r1, r2)]. *)
Theorem collision_argument_order (st : list Particle.t) (r1 r2 : ref) :
  check_particle_collision st r2 r1 = check_particle_collision st r1 r2.
Proof.
  unfold check_particle_collision.
  destruct (decide (r2 = r1)) as [->|Hne].
  - destruct (decide (r1 = r1)); [reflexivity|contradiction].
  - destruct (decide (r1 = r2)); [congruence|].
    destruct (st !! r1) as [p1|], (st !! r2) as [p2|]; try reflexivity.
    rewrite resolve_pair_swap.
    destruct (resolve_pair p1 p2) as [[[b p1'] p2']|e]; [|reflexivity].
    eval_py. rewrite list_insert_insert_ne by auto. reflexivity.
Qed.


(** ** Particle.update and the wall pass *)

(** X8.  [update] always leaves the cached cell indices in step with the
    new position: whatever they were before the call, afterwards
    [cell_x = floor(x / CELL_SIZE)] and [cell_y = floor(y / CELL_SIZE)]; the
    guard around the assignment never leaves a stale value behind. *)
Theorem update_refreshes_cell_indices (p : Particle.t) (width height : R) :
  let p' := fst (Particle.update p width height) in
  Particle.cell_x p' = Zfloor (Particle.x p' / CELL_SIZE) /\
  Particle.cell_y p' = Zfloor (Particle.y p' / CELL_SIZE).
Proof.
  unfold Particle.update. eval_py.
  repeat match goal with
         | |- context [if Rlt_dec ?a ?b then _ else _] => destruct (Rlt_dec a b)
         | |- context [if Rgt_dec ?a ?b then _ else _] => destruct (Rgt_dec a b)
         end; eval_py;
    match goal with
    | |- context [if ?c then _ else _] => destruct c eqn:Hguard
    end; eval_py; try (split; reflexivity);
    apply orb_false_elim in Hguard; destruct Hguard as [Hx Hy];
    apply negb_false_iff in Hx, Hy; apply Z.eqb_eq in Hx, Hy; auto.
Qed.

Lemma update_particles_spec (ps : list Particle.t) (width height : R) :
  fst (Simulation.update_particles ps width height)
  = map (fun p => fst (Particle.update p width height)) ps /\
  snd (Simulation.update_particles ps width height)
  = Z.of_nat (length (filter (fun p => snd (Particle.update p width height) = true) ps)).
Proof.
  induction ps as [|p ps [IH1 IH2]]; [split; reflexivity|].
  cbn [Simulation.update_particles map]. rewrite filter_cons.
  destruct (Particle.update p width height) as [p' hit].
  destruct (Simulation.update_particles ps width height) as [ps' n].
  cbn [fst snd] in *. subst ps' n. split; [reflexivity|].
  destruct hit.
  - rewrite decide_True by reflexivity. cbn [length]. lia.
  - rewrite decide_False by discriminate. lia.
Qed.

(** X9.  The wall pass of a tick updates every particle in place and counts
    particles, not walls: the count is the number of particles whose
    [update] reported a contact, so a particle that hits two walls at once
    in a corner adds one, and the count lies between 0 and the number of
    particles. *)
Theorem wall_pass_counts_particles (ps : list Particle.t) (width height : R) :
  let result := Simulation.update_particles ps width height in
  fst result = map (fun p => fst (Particle.update p width height)) ps /\
  snd result
  = Z.of_nat (length (filter (fun p => snd (Particle.update p width height) = true) ps)) /\
  (0 <= snd result <= Z.of_nat (length ps))%Z.
Proof.
  destruct (update_particles_spec ps width height) as [H1 H2].
  cbv zeta. split; [assumption|]. split; [assumption|].
  rewrite H2. pose proof (length_filter
    (fun p => snd (Particle.update p width height) = true) ps). lia.
Qed.

(** A corner hit: both wall tests of the first particle succeed, the count
    is one. *)
Lemma corner_pair_wall_pass :
  snd (Simulation.update_particles corner_pair 100 100) = 1%Z.
Proof.
  unfold corner_pair, Simulation.update_particles, Particle.update. eval_py.
  destruct (Rlt_dec (93 + 4 - 5) 0); [exfalso; lra|].
  destruct (Rgt_dec (93 + 4 + 5) 100); [|exfalso; lra]. eval_py.
  destruct (Rlt_dec (92 + 5 - 5) 0); [exfalso; lra|].
  destruct (Rgt_dec (92 + 5 + 5) 100); [|exfalso; lra]. eval_py.
  destruct (Rlt_dec (50 + 1 - 5) 0); [exfalso; lra|].
  destruct (Rgt_dec (50 + 1 + 5) 100); [exfalso; lra|]. eval_py.
  destruct (Rlt_dec (50 + 1 - 5) 0); [exfalso; lra|].
  destruct (Rgt_dec (50 + 1 + 5) 100); [exfalso; lra|]. eval_py.
  repeat match goal with
         | |- context [if ?c then _ else _] => destruct c
         end; reflexivity.
Qed.

(** ** Particle.get_color *)











(** ** SpatialGrid: occupancy after a rebuild *)

(** The insertion loop, cell by cell: a reference is in a cell afterwards
    exactly if it was there before or the loop inserted it for a particle
    whose clamped index is that cell. *)
Lemma insert_all_cells (rps : list (ref * Particle.t)) (g0 g : SpatialGrid.t) :
  grid_wf g0 ->
  for_each rps g0 (fun g '(r, particle) => SpatialGrid.insert g r particle)
    = Ok g ->
  forall (c w : nat) (r : ref),
    r ∈ cell_at (SpatialGrid.grid g) c w <->
    r ∈ cell_at (SpatialGrid.grid g0) c w \/
    exists p, (r, p) ∈ rps /\
      c = Z.to_nat (cell_index CELL_SIZE (Particle.x p) (SpatialGrid.cols g0)) /\
      w = Z.to_nat (cell_index CELL_SIZE (Particle.y p) (SpatialGrid.rows g0)).
Proof.
  revert g0. induction rps as [|[r0 p0] rps IH]; intros g0 Hwf Hrun c w r.
  - simpl in Hrun. inversion Hrun; subst g. split; [auto|].
    intros [H|(p & H & _)]; [assumption|].
    apply elem_of_nil in H. contradiction.
  - simpl in Hrun.
    destruct (SpatialGrid.insert g0 r0 p0) as [g1|e] eqn:Hins;
      [|discriminate].
    eval_py in Hrun.
    destruct (insert_Ok_dims _ _ _ _ Hwf Hins) as [Hc Hr].
    destruct (insert_spec g0 r0 p0 Hwf Hc Hr)
      as (g1' & Hins' & Hwf1 & Hc1 & Hr1 & Hcell).
    rewrite Hins in Hins'. inversion Hins'; subst g1'. clear Hins'.
    rewrite (IH g1 Hwf1 Hrun c w r), Hc1, Hr1, Hcell. clear IH.
    destruct (decide _) as [[-> ->]|Hne].
    + rewrite elem_of_app, list_elem_of_singleton. split.
      * intros [[H| ->]|(p & Hp & Hpc & Hpw)].
        -- left. assumption.
        -- right. exists p0. split; [left|]. auto.
        -- right. exists p. split; [right; assumption|]. auto.
      * intros [H|(p & Hp & Hpc & Hpw)]; [left; left; assumption|].
        apply elem_of_cons in Hp. destruct Hp as [Heq|Hp].
        -- inversion Heq; subst. left. right. reflexivity.
        -- right. exists p. auto.
    + split.
      * intros [H|(p & Hp & Hpc & Hpw)]; [left; assumption|].
        right. exists p. split; [right; assumption|]. auto.
      * intros [H|(p & Hp & Hpc & Hpw)]; [left; assumption|].
        apply elem_of_cons in Hp. destruct Hp as [Heq|Hp].
        -- inversion Heq; subst. exfalso. apply Hne. auto.
        -- right. exists p. auto.
Qed.

(** No cell receives a reference twice when the references inserted are
    distinct and new. *)
Lemma insert_all_NoDup (rps : list (ref * Particle.t)) (g0 g : SpatialGrid.t) :
  grid_wf g0 ->
  for_each rps g0 (fun g '(r, particle) => SpatialGrid.insert g r particle)
    = Ok g ->
  NoDup (map fst rps) ->
  (forall (c w : nat) (r : ref),
     r ∈ cell_at (SpatialGrid.grid g0) c w -> r ∉ map fst rps) ->
  (forall c w : nat, NoDup (cell_at (SpatialGrid.grid g0) c w)) ->
  forall c w : nat, NoDup (cell_at (SpatialGrid.grid g) c w).
Proof.
  revert g0. induction rps as [|[r0 p0] rps IH];
    intros g0 Hwf Hrun Hnd Hfresh Hcells c w.
  - simpl in Hrun. inversion Hrun; subst g. apply Hcells.
  - simpl in Hrun.
    destruct (SpatialGrid.insert g0 r0 p0) as [g1|e] eqn:Hins;
      [|discriminate].
    eval_py in Hrun.
    destruct (insert_Ok_dims _ _ _ _ Hwf Hins) as [Hc Hr].
    destruct (insert_spec g0 r0 p0 Hwf Hc Hr)
      as (g1' & Hins' & Hwf1 & Hc1 & Hr1 & Hcell).
    rewrite Hins in Hins'. inversion Hins'; subst g1'. clear Hins'.
    cbn [map fst] in Hnd. apply NoDup_cons in Hnd. destruct Hnd as [Hr0 Hnd].
    apply (IH g1 Hwf1 Hrun Hnd).
    + intros c' w' r Hmem Hin. rewrite Hcell in Hmem.
      destruct (decide _).
      * apply elem_of_app in Hmem. destruct Hmem as [Hmem|Hmem].
        -- apply (Hfresh c' w' r Hmem). right. assumption.
        -- apply list_elem_of_singleton in Hmem. subst r. contradiction.
      * apply (Hfresh c' w' r Hmem). right. assumption.
    + intros c' w'. rewrite Hcell. destruct (decide _); [|apply Hcells].
      apply NoDup_app. split; [apply Hcells|]. split; [|apply NoDup_singleton].
      intros r Hmem Hsingle. apply list_elem_of_singleton in Hsingle. subst r.
      apply (Hfresh c' w' r0 Hmem). left.
Qed.

Lemma elem_of_enumerate (st : list Particle.t) (r : ref) (p : Particle.t) :
  (r, p) ∈ zip (seq 0 (length st)) st <-> st !! r = Some p.
Proof.
  rewrite list_elem_of_lookup. split.
  - intros [i Hi]. apply lookup_zip_with_Some in Hi.
    destruct Hi as (r' & p' & Heq & Hseq & Hst). inversion Heq; subst r' p'.
    apply lookup_seq in Hseq. destruct Hseq as [Hr _]. simpl in Hr. subst r.
    assumption.
  - intros Hl. exists r. apply lookup_zip_with_Some. exists r, p.
    split; [reflexivity|]. split; [|assumption].
    apply lookup_seq. split; [reflexivity|].
    apply lookup_lt_Some in Hl. assumption.
Qed.

Lemma rebuild_grid_cells (st : list Particle.t) (width height : R)
    (g : SpatialGrid.t) :
  Simulation.rebuild_grid st width height = Ok g ->
  (forall (c w : nat) (r : ref),
     r ∈ cell_at (SpatialGrid.grid g) c w <->
     exists p, st !! r = Some p /\
       c = Z.to_nat (cell_index CELL_SIZE (Particle.x p) (SpatialGrid.cols g)) /\
       w = Z.to_nat (cell_index CELL_SIZE (Particle.y p) (SpatialGrid.rows g))) /\
  (forall c w : nat, NoDup (cell_at (SpatialGrid.grid g) c w)).
Proof.
  unfold Simulation.rebuild_grid. intros Hrun.
  pose proof (grid_wf_init width height) as Hwf0.
  destruct (insert_all_spec _ _ _ Hwf0 Hrun) as (_ & Hc & Hr & _).
  split.
  - intros c w r. rewrite (insert_all_cells _ _ _ Hwf0 Hrun c w r).
    rewrite cell_at_init, Hc, Hr. split.
    + intros [H|(p & Hp & Hcw)]; [apply elem_of_nil in H; contradiction|].
      exists p. rewrite <- elem_of_enumerate. auto.
    + intros (p & Hp & Hcw). right. exists p.
      rewrite elem_of_enumerate. auto.
  - apply (insert_all_NoDup _ _ _ Hwf0 Hrun).
    + rewrite fst_zip by (rewrite length_seq; lia). apply NoDup_seq.
    + intros c w r H. rewrite cell_at_init in H.
      apply elem_of_nil in H. contradiction.
    + intros c w. rewrite cell_at_init. apply NoDup_nil_2.
Qed.

(** X13.  After a rebuild every particle is stored exactly once: its
    reference is in the cell given by the floor of its position over the
    cell size, clamped to the grid, it is in no other cell, and no cell
    holds a reference twice. *)
Theorem rebuild_stores_each_particle_once (st : list Particle.t)
    (width height : R) (g : SpatialGrid.t) :
  Simulation.rebuild_grid st width height = Ok g ->
  (forall (r : ref) (p : Particle.t) (c w : nat),
     st !! r = Some p ->
     (r ∈ cell_at (SpatialGrid.grid g) c w <->
      c = Z.to_nat (cell_index CELL_SIZE (Particle.x p) (SpatialGrid.cols g)) /\
      w = Z.to_nat (cell_index CELL_SIZE (Particle.y p) (SpatialGrid.rows g)))) /\
  (forall (c w : nat) (r : ref),
     r ∈ cell_at (SpatialGrid.grid g) c w -> (r < length st)%nat) /\
  (forall c w : nat, NoDup (cell_at (SpatialGrid.grid g) c w)).
Proof.
  intros Hg. destruct (rebuild_grid_cells _ _ _ _ Hg) as [Hcells Hnd].
  split; [|split; [|assumption]].
  - intros r p c w Hp. rewrite Hcells. split.
    + intros (p' & Hp' & Hcw). rewrite Hp in Hp'. inversion Hp'; subst p'.
      assumption.
    + intros Hcw. exists p. auto.
  - intros c w r Hmem. apply Hcells in Hmem. destruct Hmem as (p & Hp & _).
    apply lookup_lt_Some in Hp. assumption.
Qed.

Lemma rebuild_stores_each_particle_once_witness :
  exists g,
    Simulation.rebuild_grid head_on 100 100 = Ok g /\
    forall c w : nat, NoDup (cell_at (SpatialGrid.grid g) c w).
Proof.
  destruct (rebuild_grid_ok head_on 100 100) as [g Hg]; [lra|lra|].
  exists g. split; [exact Hg|].
  exact (proj2 (proj2 (rebuild_stores_each_particle_once _ _ _ _ Hg))).
Defined.

(** ** SpatialGrid.get_potential_collisions: the exact candidate set *)

Lemma get_potential_collisions_block (g : SpatialGrid.t) (p : Particle.t) :
  grid_wf g ->
  (1 <= SpatialGrid.cols g)%Z -> (1 <= SpatialGrid.rows g)%Z ->
  let col := cell_index CELL_SIZE (Particle.x p) (SpatialGrid.cols g) in
  let row := cell_index CELL_SIZE (Particle.y p) (SpatialGrid.rows g) in
  SpatialGrid.get_potential_collisions g p
  = Ok (concat (map (fun i =>
          concat (map (fun j =>
            cell_at (SpatialGrid.grid g) (Z.to_nat i) (Z.to_nat j))
            (py_range (Z.max 0 (row - 1)) (Z.min (row + 2) (SpatialGrid.rows g)))))
          (py_range (Z.max 0 (col - 1)) (Z.min (col + 2) (SpatialGrid.cols g))))).
Proof.
  intros Hwf Hc Hr. cbv zeta.
  unfold SpatialGrid.get_potential_collisions, int_floordiv.
  destruct Hwf as (Hcs & Hrest). rewrite Hcs.
  destruct (Req_dec_T CELL_SIZE 0) as [H0|_];
    [unfold CELL_SIZE, PARTICLE_SIZE in H0; lra|].
  eval_py.
  fold (cell_index CELL_SIZE (Particle.x p) (SpatialGrid.cols g)).
  fold (cell_index CELL_SIZE (Particle.y p) (SpatialGrid.rows g)).
  rewrite candidates_block; [reflexivity| | |].
  - split; assumption.
  - intros i Hi. apply elem_of_py_range in Hi. lia.
  - intros j Hj. apply elem_of_py_range in Hj. lia.
Qed.

Lemma NoDup_py_range (lo hi : Z) : NoDup (py_range lo hi).
Proof.
  unfold py_range. apply NoDup_fmap_2; [|apply NoDup_seq].
  intros a b H. lia.
Qed.

(** A concatenation of duplicate-free lists that share no element is
    duplicate-free. *)
Lemma NoDup_concat_map {A B : Type} (f : A -> list B) (xs : list A) :
  NoDup xs ->
  (forall x, x ∈ xs -> NoDup (f x)) ->
  (forall x y b, x ∈ xs -> y ∈ xs -> b ∈ f x -> b ∈ f y -> x = y) ->
  NoDup (concat (map f xs)).
Proof.
  induction xs as [|x xs IH]; intros Hnd Heach Hdisj; simpl.
  - apply NoDup_nil_2.
  - apply NoDup_cons in Hnd. destruct Hnd as [Hx Hnd].
    apply NoDup_app. split; [apply Heach; left|]. split.
    + intros b Hb Hb'. apply list_elem_of_In, in_concat in Hb'.
      destruct Hb' as (l & Hl & Hbl). apply in_map_iff in Hl.
      destruct Hl as (y & <- & Hy). apply list_elem_of_In in Hy, Hbl.
      assert (x = y) by (apply (Hdisj x y b); [left|right| |]; assumption).
      subst y. contradiction.
    + apply IH; [assumption| |].
      * intros y Hy. apply Heach. right. assumption.
      * intros y z b Hy Hz. apply Hdisj; right; assumption.
Qed.

Lemma elem_of_concat_map {A B : Type} (f : A -> list B) (xs : list A) (b : B) :
  b ∈ concat (map f xs) <-> exists x, x ∈ xs /\ b ∈ f x.
Proof.
  split.
  - intros Hb. apply list_elem_of_In, in_concat in Hb.
    destruct Hb as (l & Hl & Hb). apply in_map_iff in Hl.
    destruct Hl as (x & <- & Hx).
    exists x. split; apply list_elem_of_In; assumption.
  - intros (x & Hx & Hb). apply list_elem_of_In, in_concat.
    exists (f x). split; [apply in_map_iff; exists x; split; [reflexivity|]|];
      apply list_elem_of_In; assumption.
Qed.

Lemma candidates_exact (st : list Particle.t) (width height : R)
    (g : SpatialGrid.t) (r : ref) (p : Particle.t) :
  Simulation.rebuild_grid st width height = Ok g ->
  st !! r = Some p ->
  exists l,
    SpatialGrid.get_potential_collisions g p = Ok l /\
    NoDup l /\
    r ∈ l /\
    forall r' : ref,
      r' ∈ l <->
      exists p', st !! r' = Some p' /\
        let col := fun q => cell_index CELL_SIZE (Particle.x q) (SpatialGrid.cols g) in
        let row := fun q => cell_index CELL_SIZE (Particle.y q) (SpatialGrid.rows g) in
        (col p - 1 <= col p' <= col p + 1)%Z /\
        (row p - 1 <= row p' <= row p + 1)%Z.
Proof.
  intros Hg Hp.
  destruct (rebuild_grid_spec _ _ _ _ Hg) as (Hwf & Hdims & _ & _).
  destruct Hdims as [Hc Hr]; [intros ->; discriminate|].
  destruct (rebuild_grid_cells _ _ _ _ Hg) as [Hcells Hnd].
  pose proof (get_potential_collisions_block g p Hwf Hc Hr) as Hl.
  cbv zeta in Hl.
  set (col := fun q => cell_index CELL_SIZE (Particle.x q) (SpatialGrid.cols g)).
  set (row := fun q => cell_index CELL_SIZE (Particle.y q) (SpatialGrid.rows g)).
  fold (col p) in Hl. fold (row p) in Hl.
  assert (Hcol : forall q, (0 <= col q < SpatialGrid.cols g)%Z)
    by (intros q; apply cell_index_range; assumption).
  assert (Hrow : forall q, (0 <= row q < SpatialGrid.rows g)%Z)
    by (intros q; apply cell_index_range; assumption).
  assert (Hmem : forall r' : ref,
    r' ∈ concat (map (fun i =>
            concat (map (fun j =>
              cell_at (SpatialGrid.grid g) (Z.to_nat i) (Z.to_nat j))
              (py_range (Z.max 0 (row p - 1))
                        (Z.min (row p + 2) (SpatialGrid.rows g)))))
            (py_range (Z.max 0 (col p - 1))
                      (Z.min (col p + 2) (SpatialGrid.cols g)))) <->
    exists p', st !! r' = Some p' /\
      (col p - 1 <= col p' <= col p + 1)%Z /\
      (row p - 1 <= row p' <= row p + 1)%Z).
  { intros r'. rewrite elem_of_concat_map. split.
    - intros (i & Hi & Hr'). apply elem_of_concat_map in Hr'.
      destruct Hr' as (j & Hj & Hr').
      apply elem_of_py_range in Hi, Hj.
      apply Hcells in Hr'. destruct Hr' as (p' & Hp' & Hci & Hcj).
      exists p'. split; [assumption|].
      fold (col p') in Hci. fold (row p') in Hcj.
      specialize (Hcol p'). specialize (Hrow p'). lia.
    - intros (p' & Hp' & Hci & Hcj).
      exists (col p'). split; [apply elem_of_py_range; specialize (Hcol p'); lia|].
      apply elem_of_concat_map.
      exists (row p'). split; [apply elem_of_py_range; specialize (Hrow p'); lia|].
      apply Hcells. exists p'. auto. }
  eexists. split; [exact Hl|]. split; [|split].
  - apply NoDup_concat_map; [apply NoDup_py_range| |].
    + intros i Hi. apply NoDup_concat_map; [apply NoDup_py_range| |].
      * intros j _. apply Hnd.
      * intros j j' b Hj Hj' Hb Hb'.
        apply elem_of_py_range in Hj, Hj'.
        apply Hcells in Hb, Hb'.
        destruct Hb as (q & Hq & _ & Hqj), Hb' as (q' & Hq' & _ & Hqj').
        rewrite Hq in Hq'. inversion Hq'; subst q'. lia.
    + intros i i' b Hi Hi' Hb Hb'.
      apply elem_of_py_range in Hi, Hi'.
      apply elem_of_concat_map in Hb, Hb'.
      destruct Hb as (j & _ & Hb), Hb' as (j' & _ & Hb').
      apply Hcells in Hb, Hb'.
      destruct Hb as (q & Hq & Hqi & _), Hb' as (q' & Hq' & Hqi' & _).
      rewrite Hq in Hq'. inversion Hq'; subst q'. lia.
  - apply Hmem. exists p. split; [assumption|]. lia.
  - exact Hmem.
Qed.

(** X14.  The candidate query, exactly: after a rebuild, the query for a
    stored particle returns, without duplicates, the particles whose cell
    index differs from its own by at most one on each axis, and only those;
    the particle itself is always among them. *)
Theorem candidates_are_the_neighbouring_cells (st : list Particle.t)
    (width height : R) (g : SpatialGrid.t) (r : ref) (p : Particle.t) :
  Simulation.rebuild_grid st width height = Ok g ->
  st !! r = Some p ->
  exists l,
    SpatialGrid.get_potential_collisions g p = Ok l /\
    NoDup l /\
    r ∈ l /\
    forall r' : ref,
      r' ∈ l <->
      exists p', st !! r' = Some p' /\
        let col := fun q => cell_index CELL_SIZE (Particle.x q) (SpatialGrid.cols g) in
        let row := fun q => cell_index CELL_SIZE (Particle.y q) (SpatialGrid.rows g) in
        (col p - 1 <= col p' <= col p + 1)%Z /\
        (row p - 1 <= row p' <= row p + 1)%Z.
Proof. exact (candidates_exact st width height g r p). Qed.

Lemma candidates_are_the_neighbouring_cells_witness :
  exists g l,
    Simulation.rebuild_grid head_on 100 100 = Ok g /\
    SpatialGrid.get_potential_collisions g (Particle.mk 46 50 2 0 5 1 4 5)
      = Ok l /\
    NoDup l /\ 0%nat ∈ l.
Proof.
  destruct (rebuild_grid_ok head_on 100 100) as [g Hg]; [lra|lra|].
  destruct (candidates_are_the_neighbouring_cells head_on 100 100 g 0
              (Particle.mk 46 50 2 0 5 1 4 5) Hg eq_refl)
    as (l & Hl & Hnd & Hself & _).
  exists g, l. auto.
Defined.

(** ** SpatialGrid.clear *)

Lemma for_each_app {A S : Type} (xs ys : list A) (s : S)
    (body : S -> A -> result S) :
  for_each (xs ++ ys) s body
  = s' ← for_each xs s body; for_each ys s' body.
Proof.
  revert s. induction xs as [|x xs IH]; intros s; simpl; [reflexivity|].
  destruct (body s x) as [s'|e]; simpl; [apply IH|reflexivity].
Qed.

Lemma py_range_0_S (k : nat) :
  py_range 0 (Z.of_nat (S k)) = py_range 0 (Z.of_nat k) ++ [Z.of_nat k].
Proof.
  unfold py_range. rewrite !Z.sub_0_r, !Nat2Z.id.
  rewrite seq_S, map_app. reflexivity.
Qed.

Lemma py_range_0_to_nat (n : Z) :
  py_range 0 n = py_range 0 (Z.of_nat (Z.to_nat n)).
Proof. unfold py_range. rewrite !Z.sub_0_r, Nat2Z.id. reflexivity. Qed.

(** Overwriting position [k] of a list whose first [k] positions already
    hold [x]. *)
Lemma insert_replicate_drop {A : Type} (l : list A) (k : nat) (x : A) :
  (k < length l)%nat ->
  <[k:=x]> (replicate k x ++ drop k l) = replicate (S k) x ++ drop (S k) l.
Proof.
  intros Hk. destruct (lookup_lt_is_Some_2 l k Hk) as [y Hy].
  rewrite (drop_S l y k Hy).
  rewrite insert_app_r_alt by (rewrite length_replicate; lia).
  rewrite length_replicate, Nat.sub_diag. cbn [insert list_insert].
  rewrite replicate_S_end, <- app_assoc. reflexivity.
Qed.

Lemma assign_item_in_range {A : Type} (l : list A) (k : nat) (a : A) :
  (k < length l)%nat -> assign_item l (Z.of_nat k) a = Ok (<[k:=a]> l).
Proof.
  intros H. unfold assign_item.
  rewrite norm_index_in_range by lia. rewrite Nat2Z.id. reflexivity.
Qed.

(** Inner loop of [clear] on column [c], after [k] rows. *)
Lemma clear_column (grid : list (list (list ref))) (column : list (list ref))
    (c k : nat) :
  grid !! c = Some column ->
  (k <= length column)%nat ->
  for_each (py_range 0 (Z.of_nat k)) grid (fun grid row =>
    column ← getitem grid (Z.of_nat c);
    column ← assign_item column row [];
    Ok (setitem grid (Z.of_nat c) column))
  = Ok (<[c:=replicate k [] ++ drop k column]> grid).
Proof.
  intros Hc. pose proof (lookup_lt_Some _ _ _ Hc) as Hcl.
  induction k as [|k IH]; intros Hk.
  - simpl. rewrite drop_0, list_insert_id by assumption. reflexivity.
  - rewrite py_range_0_S, for_each_app, IH by lia. eval_py.
    set (column_k := replicate k [] ++ drop k column).
    assert (Hlen : length column_k = length column).
    { unfold column_k. rewrite length_app, length_replicate, length_drop. lia. }
    rewrite (getitem_in_range _ _ column_k) by
      (try lia; rewrite Nat2Z.id; apply list_lookup_insert_eq; assumption).
    eval_py. rewrite assign_item_in_range by lia. eval_py.
    rewrite setitem_in_range by (rewrite length_insert; lia).
    rewrite Nat2Z.id, list_insert_insert_eq.
    unfold column_k. rewrite insert_replicate_drop by lia. reflexivity.
Qed.

(** Outer loop of [clear], after [k] columns. *)
Lemma clear_columns (grid : list (list (list ref))) (rows : Z) (k : nat) :
  (forall (c : nat) (column : list (list ref)),
     grid !! c = Some column -> length column = Z.to_nat rows) ->
  (k <= length grid)%nat ->
  for_each (py_range 0 (Z.of_nat k)) grid (fun grid col =>
    for_each (py_range 0 rows) grid (fun grid row =>
      column ← getitem grid col;
      column ← assign_item column row [];
      Ok (setitem grid col column)))
  = Ok (replicate k (replicate (Z.to_nat rows) []) ++ drop k grid).
Proof.
  intros Hcol. induction k as [|k IH]; intros Hk.
  - simpl. rewrite drop_0. reflexivity.
  - rewrite py_range_0_S, for_each_app, IH by lia. eval_py.
    destruct (lookup_lt_is_Some_2 grid k) as [column Hcolumn]; [lia|].
    pose proof (Hcol _ _ Hcolumn) as Hlen.
    rewrite (py_range_0_to_nat rows).
    rewrite (clear_column _ column k (Z.to_nat rows)); [| |lia].
    + rewrite <- Hlen at 2. rewrite drop_all, app_nil_r.
      rewrite insert_replicate_drop by lia. reflexivity.
    + rewrite lookup_app_r by (rewrite length_replicate; lia).
      rewrite length_replicate, Nat.sub_diag, lookup_drop, Nat.add_0_r.
      assumption.
Qed.

Lemma clear_wf (g : SpatialGrid.t) :
  grid_wf g ->
  clear g
  = Ok (SpatialGrid.mk (SpatialGrid.cell_size g) (SpatialGrid.cols g)
          (SpatialGrid.rows g)
          (replicate (Z.to_nat (SpatialGrid.cols g))
             (replicate (Z.to_nat (SpatialGrid.rows g)) []))).
Proof.
  intros (Hcs & Hlen & Hcol). unfold clear.
  rewrite (py_range_0_to_nat (SpatialGrid.cols g)).
  rewrite (clear_columns _ _ _ Hcol) by lia. eval_py.
  rewrite <- Hlen at 2. rewrite drop_all, app_nil_r. reflexivity.
Qed.

(** X15.  [clear] undoes every [insert]: on a grid filled by a rebuild it
    returns the grid as [SpatialGrid(width, height)] constructs it, with
    the same numbers of columns and rows and every cell empty (and so it
    changes nothing on a grid that was just constructed). *)
Theorem clear_restores_fresh_grid (st : list Particle.t) (width height : R)
    (g : SpatialGrid.t) :
  Simulation.rebuild_grid st width height = Ok g ->
  clear g = Ok (SpatialGrid.init width height) /\
  clear (SpatialGrid.init width height) = Ok (SpatialGrid.init width height).
Proof.
  intros Hg. unfold Simulation.rebuild_grid in Hg.
  destruct (insert_all_spec _ _ _ (grid_wf_init width height) Hg)
    as (Hwf & Hc & Hr & _).
  split.
  - rewrite (clear_wf g Hwf), Hc, Hr. destruct Hwf as (-> & _). reflexivity.
  - rewrite (clear_wf _ (grid_wf_init width height)). reflexivity.
Qed.

Lemma clear_restores_fresh_grid_witness :
  exists g,
    Simulation.rebuild_grid head_on 100 100 = Ok g /\
    clear g = Ok (SpatialGrid.init 100 100).
Proof.
  destruct (rebuild_grid_ok head_on 100 100) as [g Hg]; [lra|lra|].
  exists g. split; [exact Hg|].
  exact (proj1 (clear_restores_fresh_grid _ _ _ _ Hg)).
Defined.

(** ** Containers with a negative dimension *)

Lemma Zfloor_neg (v : R) : v < 0 -> (Zfloor v < 0)%Z.
Proof.
  intros H. pose proof (Zfloor_bound v) as [Hb _].
  apply lt_IZR. simpl. lra.
Qed.

Lemma rebuild_grid_negative (st : list Particle.t) (width height : R) :
  st <> [] -> width < 0 \/ height < 0 ->
  Simulation.rebuild_grid st width height = Raise IndexError.
Proof.
  intros Hst Hneg. destruct st as [|p st]; [contradiction|].
  assert (HC : 0 < CELL_SIZE) by (unfold CELL_SIZE, PARTICLE_SIZE; lra).
  unfold Simulation.rebuild_grid. cbn [length seq zip zip_with for_each].
  unfold SpatialGrid.insert at 2, int_floordiv.
  unfold SpatialGrid.init.
  cbn [SpatialGrid.cell_size SpatialGrid.cols SpatialGrid.rows SpatialGrid.grid].
  destruct (Req_dec_T CELL_SIZE 0) as [H0|_]; [lra|]. eval_py.
  set (cols := (Zfloor (width / CELL_SIZE) + 1)%Z).
  set (rows := (Zfloor (height / CELL_SIZE) + 1)%Z).
  destruct (Z_lt_le_dec cols 1) as [Hc|Hc].
  - replace (Z.to_nat cols) with 0%nat by lia. cbn [replicate].
    rewrite getitem_empty. reflexivity.
  - assert (Hh : height < 0).
    { destruct Hneg as [Hw|Hh]; [|assumption]. exfalso.
      assert (Zfloor (width / CELL_SIZE) < 0)%Z; [|unfold cols in Hc; lia].
      apply Zfloor_neg. apply Rmult_neg_pos; [assumption|].
      apply Rinv_0_lt_compat. assumption. }
    assert (Hr : (rows < 1)%Z).
    { assert (Zfloor (height / CELL_SIZE) < 0)%Z; [|unfold rows; lia].
      apply Zfloor_neg. apply Rmult_neg_pos; [assumption|].
      apply Rinv_0_lt_compat. assumption. }
    replace (Z.to_nat rows) with 0%nat by lia. cbn [replicate].
    set (ci := Z.min (Z.max 0 (Zfloor (Particle.x p / CELL_SIZE))) (cols - 1)).
    rewrite (getitem_in_range _ ci []);
      [|lia|apply lookup_replicate; split; [reflexivity|lia]].
    eval_py. rewrite getitem_empty. reflexivity.
Qed.

Lemma update_particles_nonempty (ps : list Particle.t) (width height : R) :
  ps <> [] -> fst (Simulation.update_particles ps width height) <> [].
Proof.
  intros H. destruct (update_particles_spec ps width height) as [-> _].
  destruct ps; [contradiction|discriminate].
Qed.

(** X16.  A container with a negative width or height cannot be ticked:
    with at least one particle, [update] raises [IndexError] in the grid
    rebuild, because the grid then has no column or no row to insert into.
    The constructor accepts such a container, so the first tick of a
    simulation constructed with a negative dimension fails this way. *)
Theorem update_negative_container_raises (self : Simulation.t) (dt : R) :
  Simulation.particles self <> [] ->
  Simulation.width self < 0 \/ Simulation.height self < 0 ->
  Simulation.update self dt = Raise IndexError.
Proof.
  intros Hps Hneg. unfold Simulation.update.
  pose proof (update_particles_nonempty _ (Simulation.width self)
                (Simulation.height self) Hps) as Hst.
  destruct (Simulation.update_particles _ _ _) as [st wall_collisions].
  cbn [fst] in Hst.
  rewrite (rebuild_grid_negative st _ _ Hst Hneg). reflexivity.
Qed.

Lemma update_negative_container_raises_witness :
  exists self,
    Simulation.init (-100) 0 (fun _ => 0) = Ok self /\
    Simulation.update self (1 / 60) = Raise IndexError.
Proof.
  eexists. split; [apply init_ok|].
  apply update_negative_container_raises.
  - cbn [Simulation.particles]. discriminate.
  - left. cbn [Simulation.width]. lra.
Defined.

(** ** Simulation.update: what a tick keeps *)

Lemma same_bodies_refl (st : list Particle.t) : same_bodies st st.
Proof. split; [reflexivity|]. intros k p Hk. exists p. auto. Qed.

Lemma same_bodies_trans (st1 st2 st3 : list Particle.t) :
  same_bodies st1 st2 -> same_bodies st2 st3 -> same_bodies st1 st3.
Proof.
  intros [Hl12 H12] [Hl23 H23]. split; [congruence|].
  intros k p3 Hk. destruct (H23 k p3 Hk) as (p2 & Hp2 & Hr2 & Hm2).
  destruct (H12 k p2 Hp2) as (p1 & Hp1 & Hr1 & Hm1).
  exists p1. repeat split; congruence.
Qed.

Lemma for_each_preserves {A S : Type} (rel : S -> S -> Prop)
    (xs : list A) (s s' : S) (body : S -> A -> result S) :
  (forall s, rel s s) ->
  (forall s1 s2 s3, rel s1 s2 -> rel s2 s3 -> rel s1 s3) ->
  (forall s1 s2 x, body s1 x = Ok s2 -> rel s1 s2) ->
  for_each xs s body = Ok s' -> rel s s'.
Proof.
  intros Hrefl Htrans Hbody. revert s.
  induction xs as [|x xs IH]; intros s Hrun; simpl in Hrun.
  - inversion Hrun. apply Hrefl.
  - destruct (body s x) as [s1|e] eqn:Hs; [|discriminate].
    apply (Htrans s s1 s'); [eapply Hbody; eassumption|].
    apply IH. assumption.
Qed.

Lemma check_particle_collision_same_bodies (st st' : list Particle.t)
    (r1 r2 : ref) (b : bool) :
  check_particle_collision st r1 r2 = Ok (b, st') -> same_bodies st st'.
Proof.
  intros H. apply check_particle_collision_frame in H.
  destruct H as (Hlen & _ & Hk). split; [assumption|].
  intros k p' Hp'. destruct (Hk k p' Hp') as (p & Hp & Hr & Hm & _).
  exists p. auto.
Qed.

Lemma resolve_collisions_same_bodies (g : SpatialGrid.t)
    (st st' : list Particle.t) :
  Simulation.resolve_collisions g st = Ok st' -> same_bodies st st'.
Proof.
  unfold Simulation.resolve_collisions.
  apply for_each_preserves;
    [apply same_bodies_refl | apply same_bodies_trans |].
  intros s1 s2 r Hbody.
  destruct (s1 !! r) as [particle|]; [|discriminate].
  destruct (SpatialGrid.get_potential_collisions g particle) as [l|e];
    [|discriminate].
  eval_py in Hbody. revert Hbody.
  apply for_each_preserves;
    [apply same_bodies_refl | apply same_bodies_trans |].
  intros s3 s4 other Hcall.
  destruct (check_particle_collision s3 r other) as [[b s5]|e] eqn:Hc;
    [|discriminate].
  eval_py in Hcall. inversion Hcall; subst s5.
  eapply check_particle_collision_same_bodies. eassumption.
Qed.

Lemma update_particles_same_bodies (ps : list Particle.t) (width height : R) :
  same_bodies ps (fst (Simulation.update_particles ps width height)).
Proof.
  destruct (update_particles_spec ps width height) as [-> _].
  split; [apply length_map|].
  intros k p' Hk. rewrite list_lookup_fmap in Hk.
  destruct (ps !! k) as [p|]; [|discriminate].
  inversion Hk. exists p. split; [reflexivity|].
  split; [apply update_radius | apply update_mass].
Qed.

(** X17.  A tick keeps the population: after [update] the particle list
    has the same length, and every particle has the radius and the mass it
    had before, whatever wall bounces and collisions happened. *)
Theorem update_keeps_population (self self' : Simulation.t) (dt : R) :
  Simulation.update self dt = Ok self' ->
  length (Simulation.particles self') = length (Simulation.particles self) /\
  forall (k : ref) (p' : Particle.t),
    Simulation.particles self' !! k = Some p' ->
    exists p, Simulation.particles self !! k = Some p /\
      Particle.radius p' = Particle.radius p /\
      Particle.mass p' = Particle.mass p.
Proof.
  unfold Simulation.update.
  pose proof (update_particles_same_bodies (Simulation.particles self)
                (Simulation.width self) (Simulation.height self)) as Hwall.
  destruct (Simulation.update_particles _ _ _) as [st wall_collisions].
  cbn [fst] in Hwall.
  destruct (Simulation.rebuild_grid _ _ _) as [g|e]; [|discriminate]. eval_py.
  destruct (Simulation.resolve_collisions g st) as [st'|e] eqn:Hres;
    [|discriminate].
  apply resolve_collisions_same_bodies in Hres.
  pose proof (same_bodies_trans _ _ _ Hwall Hres) as Hboth.
  eval_py.
  destruct (Rge_dec _ 1).
  - unfold py_div. destruct (Req_dec_T _ 0); [discriminate|].
    eval_py. intros H. inversion H; subst self'. exact Hboth.
  - eval_py. intros H. inversion H; subst self'. exact Hboth.
Qed.

Lemma update_keeps_population_witness :
  exists self',
    Simulation.update small_box (1 / 4) = Ok self' /\
    length (Simulation.particles self') = 1%nat.
Proof.
  destruct (update_ok small_box (1 / 4)) as [self' Hrun].
  - simpl. lra.
  - simpl. lra.
  - intros _. simpl. lra.
  - intros r1 r2 p1 p2 Hne H1 H2.
    apply lookup_lt_Some in H1, H2.
    rewrite update_particles_length in H1, H2. simpl in H1, H2. lia.
  - exists self'. split; [exact Hrun|].
    exact (proj1 (update_keeps_population _ _ _ Hrun)).
Defined.

(** The scalar fields after a tick that returns. *)
Lemma update_fields (self self' : Simulation.t) (dt : R) :
  Simulation.update self dt = Ok self' ->
  let window := Simulation.time_elapsed self + dt in
  let hits :=
    (Simulation.collision_count self
     + snd (Simulation.update_particles (Simulation.particles self)
              (Simulation.width self) (Simulation.height self)))%Z in
  Simulation.width self' = Simulation.width self /\
  Simulation.height self' = Simulation.height self /\
  Simulation.volume self' = Simulation.volume self /\
  Simulation.temperature self'
    = Simulation.pressure self' * Simulation.volume self
      / (INR PARTICLE_COUNT * GAS_CONSTANT) /\
  ((window >= 1 /\
    window * Simulation.width self * Simulation.height self <> 0 /\
    Simulation.pressure self'
      = IZR hits / (window * Simulation.width self * Simulation.height self)
        * 1000 /\
    Simulation.collision_count self' = 0%Z /\
    Simulation.time_elapsed self' = 0) \/
   (window < 1 /\
    Simulation.pressure self' = Simulation.pressure self /\
    Simulation.collision_count self' = hits /\
    Simulation.time_elapsed self' = window)).
Proof.
  unfold Simulation.update.
  destruct (Simulation.update_particles _ _ _) as [st wall_collisions].
  destruct (Simulation.rebuild_grid _ _ _) as [g|e]; [|discriminate]. eval_py.
  destruct (Simulation.resolve_collisions _ _) as [st'|e]; [|discriminate].
  eval_py.
  destruct (Rge_dec _ 1) as [Hge|Hlt].
  - unfold py_div. destruct (Req_dec_T _ 0) as [H0|H0]; [discriminate|].
    eval_py. intros H. inversion H; subst self'. clear H. eval_py.
    repeat (split; [reflexivity|]). left. repeat split; auto.
  - eval_py. intros H. inversion H; subst self'. clear H. eval_py.
    repeat (split; [reflexivity|]). right. repeat split; auto. lra.
Qed.

Lemma wall_hits_nonneg (ps : list Particle.t) (width height : R) :
  (0 <= snd (Simulation.update_particles ps width height))%Z.
Proof.
  destruct (update_particles_spec ps width height) as [_ ->]. lia.
Qed.

(** X18.  Invariants of the sampling window.  After every tick that returns
    the window timer is below 1.0; timer and collision count stay
    non-negative when they were and [dt] is; pressure stays non-negative on
    a container of positive area; and a tick that closes a window cannot
    return on a container of zero area (the division raises). *)
Theorem update_window_invariants (self self' : Simulation.t) (dt : R) :
  Simulation.update self dt = Ok self' ->
  Simulation.time_elapsed self' < 1 /\
  (0 <= Simulation.time_elapsed self -> 0 <= dt ->
     0 <= Simulation.time_elapsed self') /\
  ((0 <= Simulation.collision_count self)%Z ->
     (0 <= Simulation.collision_count self')%Z) /\
  ((0 <= Simulation.collision_count self)%Z ->
   0 <= Simulation.pressure self ->
   0 < Simulation.width self * Simulation.height self ->
     0 <= Simulation.pressure self') /\
  (Simulation.time_elapsed self + dt >= 1 ->
     Simulation.width self * Simulation.height self <> 0).
Proof.
  intros Hrun. apply update_fields in Hrun. cbv zeta in Hrun.
  destruct Hrun as (_ & _ & _ & _ & Hcase).
  pose proof (wall_hits_nonneg (Simulation.particles self)
                (Simulation.width self) (Simulation.height self)) as Hhits.
  destruct Hcase as [(Hge & Hnz & Hp & Hc & Ht)|(Hlt & Hp & Hc & Ht)].
  - rewrite Ht, Hc, Hp. split; [lra|]. split; [intros; lra|].
    split; [intros; lia|]. split.
    + intros Hcc _ Harea.
      apply Rmult_le_pos; [|lra]. apply Rmult_le_pos.
      * apply IZR_le. lia.
      * apply Rlt_le, Rinv_0_lt_compat. rewrite Rmult_assoc.
        apply Rmult_lt_0_compat; lra.
    + intros _ H0. apply Hnz. rewrite Rmult_assoc, H0. ring.
  - rewrite Ht, Hc, Hp. split; [assumption|]. split; [intros; lra|].
    split; [intros; lia|]. split; [intros; assumption|].
    intros Hge. exfalso. lra.
Qed.

Lemma update_window_invariants_witness :
  exists self',
    Simulation.update small_box (1 / 4) = Ok self' /\
    Simulation.time_elapsed self' < 1 /\
    0 <= Simulation.pressure self'.
Proof.
  destruct (update_ok small_box (1 / 4)) as [self' Hrun].
  - simpl. lra.
  - simpl. lra.
  - intros _. simpl. lra.
  - intros r1 r2 p1 p2 Hne H1 H2.
    apply lookup_lt_Some in H1, H2.
    rewrite update_particles_length in H1, H2. simpl in H1, H2. lia.
  - exists self'. split; [exact Hrun|].
    destruct (update_window_invariants _ _ _ Hrun) as (Ht & _ & _ & Hp & _).
    split; [exact Ht|]. apply Hp; simpl; lra || lia.
Defined.

(** ** Several ticks *)

Lemma total_time_nonneg (dts : list R) :
  (forall dt, dt ∈ dts -> 0 <= dt) -> 0 <= total_time dts.
Proof.
  induction dts as [|dt dts IH]; intros H; simpl; [lra|].
  assert (0 <= dt) by (apply H; left).
  assert (0 <= total_time dts) by (apply IH; intros d Hd; apply H; right; assumption).
  unfold total_time in *. lra.
Qed.

Lemma run_ticks_open_window (dts : list R) (self self' : Simulation.t) :
  run_ticks self dts = Ok self' ->
  (forall dt, dt ∈ dts -> 0 <= dt) ->
  Simulation.time_elapsed self + total_time dts < 1 ->
  Simulation.pressure self' = Simulation.pressure self /\
  Simulation.time_elapsed self'
    = Simulation.time_elapsed self + total_time dts /\
  (Simulation.collision_count self <= Simulation.collision_count self')%Z /\
  Simulation.width self' = Simulation.width self /\
  Simulation.height self' = Simulation.height self /\
  Simulation.volume self' = Simulation.volume self.
Proof.
  unfold run_ticks. revert self.
  induction dts as [|dt dts IH]; intros self Hrun Hpos Hsum.
  - simpl in Hrun. inversion Hrun; subst self'. simpl.
    repeat split; try reflexivity; try lra; try lia.
  - simpl in Hrun.
    destruct (Simulation.update self dt) as [s1|e] eqn:Hstep; [|discriminate].
    eval_py in Hrun.
    assert (Hdt : 0 <= dt) by (apply Hpos; left).
    assert (Hrest : 0 <= total_time dts)
      by (apply total_time_nonneg; intros d Hd; apply Hpos; right; assumption).
    change (total_time (dt :: dts)) with (dt + total_time dts) in *.
    pose proof (wall_hits_nonneg (Simulation.particles self)
                  (Simulation.width self) (Simulation.height self)) as Hhits.
    apply update_fields in Hstep. cbv zeta in Hstep.
    destruct Hstep as (Hw & Hh & Hv & _ & Hcase).
    destruct Hcase as [(Hge & _)|(Hlt & Hp & Hc & Ht)]; [exfalso; lra|].
    destruct (IH s1 Hrun) as (Hp' & Ht' & Hc' & Hw' & Hh' & Hv').
    + intros d Hd. apply Hpos. right. assumption.
    + rewrite Ht. lra.
    + rewrite Hp', Ht', Hw', Hh', Hv', Hp, Ht, Hw, Hh, Hv.
      repeat split; try reflexivity; try lra; try lia.
Qed.

(** X19.  Pressure is piecewise constant: over any run of ticks with
    non-negative time steps that does not bring the window timer to 1.0,
    pressure keeps its value, the timer grows by the sum of the steps, the
    collision count never decreases, and width, height and volume stay as
    they are. *)
Theorem pressure_constant_within_window (dts : list R)
    (self self' : Simulation.t) :
  run_ticks self dts = Ok self' ->
  (forall dt, dt ∈ dts -> 0 <= dt) ->
  Simulation.time_elapsed self + total_time dts < 1 ->
  Simulation.pressure self' = Simulation.pressure self /\
  Simulation.time_elapsed self'
    = Simulation.time_elapsed self + total_time dts /\
  (Simulation.collision_count self <= Simulation.collision_count self')%Z /\
  Simulation.width self' = Simulation.width self /\
  Simulation.height self' = Simulation.height self /\
  Simulation.volume self' = Simulation.volume self.
Proof. exact (run_ticks_open_window dts self self'). Qed.

Lemma pressure_constant_within_window_witness :
  exists self',
    run_ticks small_box [1 / 8] = Ok self' /\
    Simulation.pressure self' = 0 /\
    Simulation.time_elapsed self' = 3 / 4 + (1 / 8 + 0).
Proof.
  destruct (update_ok small_box (1 / 8)) as [self' Hrun].
  - simpl. lra.
  - simpl. lra.
  - intros _. simpl. lra.
  - intros r1 r2 p1 p2 Hne H1 H2.
    apply lookup_lt_Some in H1, H2.
    rewrite update_particles_length in H1, H2. simpl in H1, H2. lia.
  - exists self'.
    assert (Hticks : run_ticks small_box [1 / 8] = Ok self').
    { unfold run_ticks. simpl. rewrite Hrun. reflexivity. }
    split; [exact Hticks|].
    destruct (pressure_constant_within_window _ _ _ Hticks)
      as (Hp & Ht & _).
    + intros dt Hdt. apply list_elem_of_singleton in Hdt. subst dt. lra.
    + simpl. lra.
    + split; [exact Hp | exact Ht].
Defined.

(** ** Simulation.resize to the current size *)

Lemma rescaled_identity (width height : R) (p : Particle.t) :
  width <> 0 -> height <> 0 ->
  Particle.radius p <= Particle.x p <= width - Particle.radius p ->
  Particle.radius p <= Particle.y p <= height - Particle.radius p ->
  Particle.cell_x p = Zfloor (Particle.x p / CELL_SIZE) ->
  Particle.cell_y p = Zfloor (Particle.y p / CELL_SIZE) ->
  rescaled width height (width / width) (height / height) p = p.
Proof.
  intros Hw Hh Hx Hy Hcx Hcy. unfold rescaled.
  replace (width / width) with 1 by (field; assumption).
  replace (height / height) with 1 by (field; assumption).
  rewrite !Rmult_1_r.
  rewrite (Rmax_left (Particle.x p)) by lra.
  rewrite (Rmax_left (Particle.y p)) by lra.
  rewrite (Rmin_left (Particle.x p)) by lra.
  rewrite (Rmin_left (Particle.y p)) by lra.
  rewrite <- Hcx, <- Hcy. destruct p. reflexivity.
Qed.

(** X20.  Resizing to the current size changes nothing on a simulation
    whose particles are within the walls with their cell indices in step
    (as [update] leaves them) and whose volume is [width * height]: the
    call returns the simulation it was given. *)
Theorem resize_to_same_size (self : Simulation.t) :
  Simulation.width self <> 0 ->
  Simulation.height self <> 0 ->
  Simulation.volume self = Simulation.width self * Simulation.height self ->
  (forall p, p ∈ Simulation.particles self ->
     Particle.radius p <= Particle.x p
       <= Simulation.width self - Particle.radius p /\
     Particle.radius p <= Particle.y p
       <= Simulation.height self - Particle.radius p /\
     Particle.cell_x p = Zfloor (Particle.x p / CELL_SIZE) /\
     Particle.cell_y p = Zfloor (Particle.y p / CELL_SIZE)) ->
  Simulation.resize self (Simulation.width self) (Simulation.height self)
  = Ok self.
Proof.
  intros Hw Hh Hv Hps. rewrite resize_ok by assumption. f_equal.
  assert (Hmap : map (rescaled (Simulation.width self) (Simulation.height self)
                        (Simulation.width self / Simulation.width self)
                        (Simulation.height self / Simulation.height self))
                     (Simulation.particles self)
                 = Simulation.particles self).
  { rewrite <- (map_id (Simulation.particles self)) at 2.
    apply map_ext_in. intros p Hp. apply list_elem_of_In in Hp.
    destruct (Hps p Hp) as (Hx & Hy & Hcx & Hcy).
    apply rescaled_identity; assumption. }
  rewrite Hmap, <- Hv. destruct self. reflexivity.
Qed.

Lemma resize_to_same_size_witness :
  Simulation.resize box_700x500 700 500 = Ok box_700x500.
Proof.
  apply (resize_to_same_size box_700x500).
  - simpl. lra.
  - simpl. lra.
  - reflexivity.
  - intros p Hp. unfold box_700x500 in Hp. cbn [Simulation.particles] in Hp.
    repeat (apply elem_of_cons in Hp; destruct Hp as [->|Hp]);
      [| | |apply elem_of_nil in Hp; contradiction];
      cbn [Particle.init Particle.x Particle.y Particle.radius
           Particle.cell_x Particle.cell_y box_700x500
           Simulation.width Simulation.height];
      unfold PARTICLE_SIZE; repeat split; try reflexivity; lra.
Defined.

(** ** main: volume control and the container outline *)

Lemma resize_from_box (simulation : Simulation.t) (bw bh bw' bh' : Z) :
  box_ok simulation bw bh ->
  (100 <= bw' <= 750)%Z -> (LENGTH_CHANGE | bw')%Z ->
  (100 <= bh' <= 550)%Z -> (LENGTH_CHANGE | bh')%Z ->
  exists simulation',
    Simulation.resize simulation (IZR bw') (IZR bh') = Ok simulation' /\
    box_ok simulation' bw' bh' /\
    length (Simulation.particles simulation')
      = length (Simulation.particles simulation) /\
    forall p', p' ∈ Simulation.particles simulation' ->
      2 * Particle.radius p' <= 100 ->
      Particle.radius p' <= Particle.x p' <= IZR bw' - Particle.radius p' /\
      Particle.radius p' <= Particle.y p' <= IZR bh' - Particle.radius p'.
Proof.
  intros (Hw & Hh & Hbw & _ & Hbh & _) Hbw' Hdw' Hbh' Hdh'.
  assert (Hw0 : Simulation.width simulation <> 0).
  { rewrite Hw. apply not_0_IZR. lia. }
  assert (Hh0 : Simulation.height simulation <> 0).
  { rewrite Hh. apply not_0_IZR. lia. }
  eexists. split; [apply resize_ok; assumption|].
  split; [|split].
  - unfold box_ok. cbn [Simulation.width Simulation.height]. tauto.
  - cbn [Simulation.particles]. apply length_map.
  - cbn [Simulation.particles]. intros p' Hp' Hr.
    apply list_elem_of_In, in_map_iff in Hp'. destruct Hp' as (p & <- & _).
    unfold rescaled in *. cbn [Particle.x Particle.y Particle.radius] in *.
    assert (100 <= IZR bw') by (apply (IZR_le 100); lia).
    assert (100 <= IZR bh') by (apply (IZR_le 100); lia).
    split; apply clamp_within; lra.
Qed.

Lemma step_divides (n : Z) :
  (LENGTH_CHANGE | n)%Z ->
  (LENGTH_CHANGE | n - LENGTH_CHANGE)%Z /\ (LENGTH_CHANGE | n + LENGTH_CHANGE)%Z.
Proof.
  intros [k ->]. split; [exists (k - 1)%Z | exists (k + 1)%Z]; lia.
Qed.

(** X21.  One frame of volume control keeps the box legal and never fails:
    from a box whose sides are multiples of 10 within 100..750 by 100..550
    and a simulation of that size, the frame returns, changes at most one
    side and by exactly one step, leaves a box and a simulation in the same
    relation, keeps the number of particles, and when it did resize, every
    particle of diameter up to 100 is within the new walls.  In particular
    [resize] is never called with a zero old dimension and the container
    never gets narrower than a particle. *)
Theorem volume_control_keeps_box (pressed : keys) (simulation : Simulation.t)
    (box_width box_height : Z) :
  box_ok simulation box_width box_height ->
  exists simulation' box_width' box_height',
    volume_control pressed simulation box_width box_height
      = Ok (simulation', box_width', box_height') /\
    box_ok simulation' box_width' box_height' /\
    (Z.abs (box_width' - box_width) + Z.abs (box_height' - box_height)
     = 0 \/
     Z.abs (box_width' - box_width) + Z.abs (box_height' - box_height)
     = LENGTH_CHANGE)%Z /\
    length (Simulation.particles simulation')
      = length (Simulation.particles simulation) /\
    ((box_width', box_height') <> (box_width, box_height) ->
     forall p', p' ∈ Simulation.particles simulation' ->
       2 * Particle.radius p' <= 100 ->
       Particle.radius p' <= Particle.x p'
         <= IZR box_width' - Particle.radius p' /\
       Particle.radius p' <= Particle.y p'
         <= IZR box_height' - Particle.radius p').
Proof.
  intros Hbox.
  pose proof Hbox as (_ & _ & Hbw & Hdw & Hbh & Hdh).
  destruct (step_divides _ Hdw) as [Hdw1 Hdw2].
  destruct (step_divides _ Hdh) as [Hdh1 Hdh2].
  unfold volume_control.
  assert (Hstep : forall bw' bh',
    (100 <= bw' <= 750)%Z -> (LENGTH_CHANGE | bw')%Z ->
    (100 <= bh' <= 550)%Z -> (LENGTH_CHANGE | bh')%Z ->
    (Z.abs (bw' - box_width) + Z.abs (bh' - box_height) = LENGTH_CHANGE)%Z ->
    exists simulation' box_width' box_height',
      (simulation0 ← Simulation.resize simulation (IZR bw') (IZR bh');
       Ok (simulation0, bw', bh'))
        = Ok (simulation', box_width', box_height') /\
      box_ok simulation' box_width' box_height' /\
      (Z.abs (box_width' - box_width) + Z.abs (box_height' - box_height)
       = 0 \/
       Z.abs (box_width' - box_width) + Z.abs (box_height' - box_height)
       = LENGTH_CHANGE)%Z /\
      length (Simulation.particles simulation')
        = length (Simulation.particles simulation) /\
      ((box_width', box_height') <> (box_width, box_height) ->
       forall p', p' ∈ Simulation.particles simulation' ->
         2 * Particle.radius p' <= 100 ->
         Particle.radius p' <= Particle.x p'
           <= IZR box_width' - Particle.radius p' /\
         Particle.radius p' <= Particle.y p'
           <= IZR box_height' - Particle.radius p')).
  { intros bw' bh' H1 H2 H3 H4 H5.
    destruct (resize_from_box simulation _ _ bw' bh' Hbox H1 H2 H3 H4)
      as (simulation' & Hres & Hbox' & Hlen & Hin).
    exists simulation', bw', bh'. rewrite Hres. eval_py.
    split; [reflexivity|]. split; [assumption|]. split; [right; assumption|].
    split; [assumption|]. intros _. assumption. }
  unfold WIDTH, HEIGHT, LENGTH_CHANGE in *.
  destruct (K_LEFT pressed && (box_width >? 100)%Z) eqn:Hl.
  { apply andb_true_iff in Hl. destruct Hl as [_ Hl].
    apply Z.gtb_lt in Hl. destruct Hdw as [k Hk].
    apply Hstep; try assumption; lia. }
  destruct (K_RIGHT pressed && (box_width <? 800 - 50)%Z) eqn:Hr.
  { apply andb_true_iff in Hr. destruct Hr as [_ Hr].
    apply Z.ltb_lt in Hr. destruct Hdw as [k Hk].
    apply Hstep; try assumption; lia. }
  destruct (K_UP pressed && (box_height >? 100)%Z) eqn:Hu.
  { apply andb_true_iff in Hu. destruct Hu as [_ Hu].
    apply Z.gtb_lt in Hu. destruct Hdh as [k Hk].
    apply Hstep; try assumption; lia. }
  destruct (K_DOWN pressed && (box_height <? 600 - 50)%Z) eqn:Hd.
  { apply andb_true_iff in Hd. destruct Hd as [_ Hd].
    apply Z.ltb_lt in Hd. destruct Hdh as [k Hk].
    apply Hstep; try assumption; lia. }
  exists simulation, box_width, box_height.
  split; [reflexivity|]. split; [assumption|]. split; [left; lia|].
  split; [reflexivity|]. intros Hne. contradiction.
Qed.

Lemma volume_control_keeps_box_witness :
  exists simulation',
    volume_control (mk_keys true false false false) box_700x500 700 500
      = Ok (simulation', 690%Z, 500%Z) /\
    Simulation.width simulation' = 690.
Proof.
  assert (Hbox : box_ok box_700x500 700 500).
  { unfold box_ok, LENGTH_CHANGE. simpl.
    repeat split; try lia; [exists 70%Z | exists 50%Z]; lia. }
  destruct (volume_control_keeps_box (mk_keys true false false false)
              box_700x500 700 500 Hbox)
    as (simulation' & bw' & bh' & Hrun & Hbox' & _).
  exists simulation'.
  assert (Hdims : bw' = 690%Z /\ bh' = 500%Z).
  { revert Hrun. unfold volume_control. cbn [K_LEFT andb].
    change (700 >? 100)%Z with true. cbv iota.
    destruct (Simulation.resize _ _ _) as [s|e]; [|discriminate].
    eval_py. intros H. inversion H. split; reflexivity. }
  destruct Hdims as [-> ->]. split; [exact Hrun|].
  exact (proj1 Hbox').
Defined.

(** X22.  Where the container outline is drawn.  For every box that volume
    control can produce, the outline lies within the window horizontally
    and below its top edge; its bottom edge is within the window exactly
    when the box is at most 500 high, so every box taller than the initial
    one is drawn partly below the 600-pixel window. *)
Theorem box_outline_in_window (box_width box_height : Z) :
  (100 <= box_width <= 750)%Z ->
  (100 <= box_height <= 550)%Z ->
  (LENGTH_CHANGE | box_height)%Z ->
  let '(box_x, box_y) := box_origin box_width box_height in
  (0 <= box_x)%Z /\ (box_x + box_width <= WIDTH)%Z /\
  (0 <= box_y)%Z /\
  ((box_y + box_height <= HEIGHT)%Z <-> (box_height <= 500)%Z).
Proof.
  intros Hw Hh [k Hk]. unfold box_origin, WIDTH, HEIGHT, LENGTH_CHANGE in *.
  subst box_height. Z.div_mod_to_equations. lia.
Qed.

Lemma box_outline_in_window_witness :
  box_origin 700 500 = (50%Z, 100%Z) /\
  (snd (box_origin 700 510) + 510 > HEIGHT)%Z.
Proof.
  split; [reflexivity|].
  pose proof (box_outline_in_window 700 510) as H.
  destruct (box_origin 700 510) as [bx by'] eqn:Hb.
  destruct H as (_ & _ & _ & Hiff);
    [lia | lia | exists 51%Z; reflexivity |].
  cbn [snd]. destruct (Z_le_gt_dec (by' + 510) HEIGHT) as [Hle|Hgt];
    [apply Hiff in Hle; lia | exact Hgt].
Defined.

(** ** Energy over a whole tick *)








(** ** A tick without overlapping pairs *)





(** ** Repeated wall bounces *)

Lemma update_n_radius (n : nat) (p : Particle.t) (width height : R) :
  Particle.radius (update_n n p width height) = Particle.radius p.
Proof.
  revert p. induction n as [|n IH]; intros p; simpl; [reflexivity|].
  rewrite IH. apply update_radius.
Qed.



(** ** Simulation.__init__: the particles it creates *)

(** X26.  Every particle the constructor creates has mass 1, cell indices
    in step with its position and, for samples in [[0, 1)], velocity
    components in [[-5, 5)], so a squared speed below 50. *)
Theorem init_particles_velocity (width height : R) (rnd : nat -> R) :
  (forall n, 0 <= rnd n < 1) ->
  exists self,
    Simulation.init width height rnd = Ok self /\
    forall (k : nat) (p : Particle.t),
      Simulation.particles self !! k = Some p ->
      Particle.mass p = 1 /\
      Particle.cell_x p = Zfloor (Particle.x p / CELL_SIZE) /\
      Particle.cell_y p = Zfloor (Particle.y p / CELL_SIZE) /\
      -5 <= Particle.vx p < 5 /\
      -5 <= Particle.vy p < 5 /\
      Particle.vx p ^ 2 + Particle.vy p ^ 2 <= 50.
Proof.
  intros Hrnd. eexists. split; [apply init_ok|].
  cbn [Simulation.particles]. intros k p Hk.
  apply init_particle in Hk. destruct Hk as [_ ->].
  unfold Simulation.random_particle.
  cbn [Particle.init Particle.mass Particle.cell_x Particle.cell_y
       Particle.x Particle.y Particle.vx Particle.vy].
  repeat (split; [reflexivity|]).
  unfold uniform.
  pose proof (Hrnd (4 * k + 2)%nat) as Hu.
  pose proof (Hrnd (4 * k + 3)%nat) as Hv.
  set (u := rnd (4 * k + 2)%nat) in *. set (v := rnd (4 * k + 3)%nat) in *.
  split; [lra|]. split; [lra|]. nra.
Qed.

Lemma init_particles_velocity_witness :
  exists self,
    Simulation.init 700 500 (fun _ => 0.5) = Ok self /\
    forall (k : nat) (p : Particle.t),
      Simulation.particles self !! k = Some p ->
      Particle.vx p ^ 2 + Particle.vy p ^ 2 <= 50.
Proof.
  destruct (init_particles_velocity 700 500 (fun _ => 0.5)) as (self & Hi & Hp).
  - intros _. change 0.5 with (5 / 10). lra.
  - exists self. split; [exact Hi|].
    intros k p Hk. apply (Hp k p Hk).
Defined.
